(** * VeriSol AI scanner: the analysis orchestration engine of [server/index.js]

    A shallow embedding of the request handler [app.post('/analyze')] and of
    the helper functions it calls, followed by the properties of the design
    document that can be settled on it.

    External collaborators (the explorer API, the language model, the forge
    and cast subprocesses, git, the file system) are not computed: their
    replies are read from an explicit environment, so every function below
    is a total, executable function of the request and of that environment. *)

From Stdlib Require Import String Ascii.
From Stdlib Require Import List Bool Arith ZArith NArith Lia Permutation.
From Equations Require Import Equations.
Import ListNotations.

Set Warnings "-register-all".

(** ** JavaScript strings

    A JavaScript string is a sequence of UTF-16 code units. *)

Module JsString.

Definition jsstring := list N.

(** A literal of the source, written as a Rocq string of ASCII characters. *)
Definition lit (s : string) : jsstring :=
  map N_of_ascii (list_ascii_of_string s).

Definition LF : jsstring := [10%N].

Fixpoint eqb (a b : jsstring) : bool :=
  match a, b with
  | [], [] => true
  | x :: a', y :: b' => N.eqb x y && eqb a' b'
  | _, _ => false
  end.

(** [s.startsWith(p)] *)
Fixpoint startsWith (p s : jsstring) : bool :=
  match p, s with
  | [], _ => true
  | x :: p', y :: s' => N.eqb x y && startsWith p' s'
  | _ :: _, [] => false
  end.

(** [s.indexOf(p)], with [None] for -1. *)
Fixpoint indexOf (p s : jsstring) : option nat :=
  if startsWith p s then Some 0
  else match s with
       | [] => None
       | _ :: s' => option_map S (indexOf p s')
       end.

(** [s.includes(p)] *)
Definition includes (p s : jsstring) : bool :=
  match indexOf p s with Some _ => true | None => false end.

(** [s.endsWith(p)] *)
Definition endsWith (p s : jsstring) : bool :=
  startsWith (rev p) (rev s).

(** WhiteSpace and LineTerminator code units of ECMAScript, the characters
    [String.prototype.trim] strips. *)
Definition isWhiteSpace (c : N) : bool :=
  ((9 <=? c) && (c <=? 13) || (c =? 32) || (c =? 160) || (c =? 5760)
   || (8192 <=? c) && (c <=? 8202) || (c =? 8232) || (c =? 8233)
   || (c =? 8239) || (c =? 8287) || (c =? 12288) || (c =? 65279))%N.

Fixpoint trimStart (s : jsstring) : jsstring :=
  match s with
  | c :: s' => if isWhiteSpace c then trimStart s' else s
  | [] => []
  end.

Definition trimEnd (s : jsstring) : jsstring := rev (trimStart (rev s)).

(** [s.trim()] *)
Definition trim (s : jsstring) : jsstring := trimEnd (trimStart s).

(** [a || b] on strings: the empty string is falsy. *)
Definition or_else (a b : jsstring) : jsstring :=
  match a with [] => b | _ :: _ => a end.

(** [s.replace(/p/g, '')] for a literal, non-empty pattern [p]: occurrences
    are removed left to right without overlap. [skip] counts the code
    units of the current occurrence still to be dropped. *)
Fixpoint remove_all_from (p : jsstring) (skip : nat) (s : jsstring) : jsstring :=
  match s with
  | [] => []
  | c :: s' =>
      match skip with
      | S k => remove_all_from p k s'
      | O => if startsWith p s then remove_all_from p (length p - 1) s'
             else c :: remove_all_from p 0 s'
      end
  end.

Definition remove_all (p s : jsstring) : jsstring := remove_all_from p 0 s.

End JsString.
Import JsString.

(** ** Values, errors and promises *)

(** JSON values, as produced by [JSON.parse] and written by [res.json];
    object literals of the source are objects with their keys in source
    order. Numbers are restricted to integers. *)
Inductive json :=
| JNull
| JBool (b : bool)
| JNum (z : Z)
| JStr (s : jsstring)
| JArr (items : list json)
| JObj (fields : list (jsstring * json)).

(** [o.k] on an object: [None] stands for [undefined]. *)
Fixpoint assoc (k : jsstring) (fields : list (jsstring * json)) : option json :=
  match fields with
  | [] => None
  | (k', v) :: rest => if JsString.eqb k k' then Some v else assoc k rest
  end.

Definition get (k : string) (o : json) : option json :=
  match o with
  | JObj fields => assoc (lit k) fields
  | _ => None
  end.

Definition has_key (k : string) (o : json) : bool :=
  match get k o with Some _ => true | None => false end.

(** ToBoolean on a request field; an absent field is [undefined]. *)
Definition truthy (v : option json) : bool :=
  match v with
  | None => false
  | Some JNull => false
  | Some (JBool b) => b
  | Some (JNum z) => negb (Z.eqb z 0)
  | Some (JStr s) => match s with [] => false | _ :: _ => true end
  | Some (JArr _) => true
  | Some (JObj _) => true
  end.

(** What a rejected promise carries: an [Error] with a message, or the error
    of a failed [exec], which has the captured [stdout] and [stderr]. *)
Inductive exn :=
| Error (message : jsstring)
| ExecError (stdout stderr : jsstring).

(** The outcome of awaiting a promise. *)
Inductive result (A : Type) :=
| Ok (a : A)
| Throw (e : exn).
Arguments Ok {A} a.
Arguments Throw {A} e.

Definition bind {A B} (r : result A) (k : A -> result B) : result B :=
  match r with
  | Ok a => k a
  | Throw e => Throw e
  end.

Declare Scope js_scope.
Delimit Scope js_scope with js.
Notation "'let*' x := r 'in' k" := (bind r (fun x => k))
  (at level 10, x name, r at level 100, k at level 200) : js_scope.
Open Scope js_scope.

Definition is_ok {A} (r : result A) : bool :=
  match r with Ok _ => true | Throw _ => false end.

(** A subprocess run by [exec]: its exit code and captured output. *)
Record exec_result := {
  exit_code : Z;
  out : jsstring;
  err : jsstring
}.

(** What a call of [execPromise] meets: the subprocess runs to its end, or
    [exec] throws before anything is captured, and the error it throws has
    neither [stdout] nor [stderr]. *)
Inductive exec_call :=
| Ran (run : exec_result)
| NotRun (message : jsstring).

(** [execPromise(command, ...)]: resolves with [stdout] on exit code zero,
    rejects with an error carrying [stdout] and [stderr] on another exit
    code, and rejects with the bare error when [exec] threw. *)
Definition execPromise (c : exec_call) : result jsstring :=
  match c with
  | Ran r => if Z.eqb (exit_code r) 0 then Ok (out r) else Throw (ExecError (out r) (err r))
  | NotRun message => Throw (Error message)
  end.

(** ** Helper functions of the server *)

Definition obj2 (k1 : string) (v1 : json) (k2 : string) (v2 : json) : json :=
  JObj [(lit k1, v1); (lit k2, v2)].

(** The two markers lines 53 and 93 look for. *)
Definition has_compiler_marker (errorLog : jsstring) : bool :=
  includes (lit "Compiler error") errorLog || includes (lit "compilation failed") errorLog.

(** The [errorLog] of the two harness adapters, [error.stdout || error.stderr];
    an error that is not the one of [exec] has neither property and gives
    [undefined], here [None]. *)
Definition errorLog_of (e : exn) : option jsstring :=
  match e with
  | ExecError o e' => Some (or_else o e')
  | Error _ => None
  end.

(** Calling [includes] on [undefined]. *)
Definition type_error : exn :=
  Error (lit "Cannot read properties of undefined (reading 'includes')").

(** 3. [getGenericFuzzingAnalysis], given the call of the forge command. *)
Definition getGenericFuzzingAnalysis (run : exec_call) : result json :=
  match execPromise run with
  | Ok _ => Ok (obj2 "status" (JStr (lit "passed"))
                     "reason" (JStr (lit "All generic invariants passed.")))
  | Throw error =>
      match errorLog_of error with
      | None => Throw type_error
      | Some errorLog =>
          if has_compiler_marker errorLog
          then Ok (obj2 "status" (JStr (lit "incompatible"))
                        "reason" (JStr (lit "Generic test suite was not compatible with this contract.")))
          else Ok (obj2 "status" (JStr (lit "failed"))
                        "reason" (JStr (lit "Generic invariant violated. Details: " ++ errorLog)))
      end
  end.

(** The fence marker and the opener of the pattern of line 75. *)
Definition fence : jsstring := lit "```".
Definition solidity_opener : jsstring := lit "```solidity".

(** [responseText.match(/```solidity([\s\S]*?)```/)], returning capture
    group 1. The match starts at the leftmost [```solidity]; the lazy group
    then ends at the first [```] after it. When no [```] follows the
    leftmost opener none follows a later one, so there is no match. *)
Definition match_solidity_block (responseText : jsstring) : option jsstring :=
  match indexOf solidity_opener responseText with
  | None => None
  | Some i =>
      let rest := skipn (i + length solidity_opener) responseText in
      match indexOf fence rest with
      | None => None
      | Some j => Some (firstn j rest)
      end
  end.

Definition no_block_message : jsstring :=
  lit "AI failed to generate a valid Solidity code block. Response was: ".

(** 5. [generateFuzzTest], given the reply of the language model to the
    test-generation prompt. *)
Definition generateFuzzTest (reply : result jsstring) : result jsstring :=
  let* responseText := reply in
  match match_solidity_block responseText with
  | None => Throw (Error (no_block_message ++ responseText))
  | Some [] => Throw (Error (no_block_message ++ responseText))
  | Some (c :: m) => Ok (trim (c :: m))
  end.

(** 7. [interpretFuzzFailure], given the reply of the language model to the
    interpretation prompt. *)
Definition interpretFuzzFailure (reply : result jsstring) : result jsstring := reply.

(** What [runAIGeneratedFuzzer] returns: [{ status, log }]. *)
Record fuzzer_output := {
  fo_status : jsstring;
  fo_log : jsstring
}.

(** 6. [runAIGeneratedFuzzer], given the outcome of writing the test file
    and the call of the forge command. *)
Definition runAIGeneratedFuzzer (write : result unit) (run : exec_call) : result fuzzer_output :=
  let* _ := write in
  match execPromise run with
  | Ok stdout => Ok {| fo_status := lit "passed"; fo_log := stdout |}
  | Throw error =>
      match errorLog_of error with
      | None => Throw type_error
      | Some errorLog =>
          if has_compiler_marker errorLog
          then Ok {| fo_status := lit "incompatible";
                     fo_log := lit "AI-generated test was not compatible or failed to compile." |}
          else Ok {| fo_status := lit "failed"; fo_log := errorLog |}
      end
  end.

(** The reply of the explorer to [action=getabi]: [data.status] and
    [data.result]. *)
Record abi_reply := {
  abi_status : jsstring;
  abi_result : jsstring
}.

(** 4. [getContractAbi], given the outcome of the GET request. *)
Definition getContractAbi (response : result abi_reply) : result jsstring :=
  let* data := response in
  if JsString.eqb (abi_status data) (lit "0")
  then Throw (Error (lit "ABI not found for this contract."))
  else Ok (abi_result data).

(** ** Events

    The handler is followed through the events it produces, in program
    order: an adapter is started when its async function is called and is
    settled when the promise it returned settles. *)

Inductive task := Static | Dynamic | Generic.

Inductive stage := FetchABI | GenerateTest | ExecuteTest | Interpret.

Inductive event :=
| FetchedSource                       (* the getsourcecode request, line 167 *)
| Started (t : task)
| Settled (t : task)
| Entered (s : stage)                 (* a stage of the AI-driven pipeline is called *)
| Left (s : stage)                    (* ... and its promise has settled *)
| Composed                            (* the address report object is built, line 189 *)
| RemovalStarted                      (* fs.remove(tempDir) is called *)
| CreationStarted                     (* fs.ensureDir(tempDir) is called *)
| CloneStarted                        (* simpleGit().clone(...) is called *)
| BatchStarted (paths : list jsstring) (* Promise.all over one slice, line 120 *)
| BatchSettled
| Paused (ms : Z)                     (* setTimeout(res, DELAY_MS), line 131 *)
| Logged (message : jsstring).        (* console.error *)

(** Tasks started together settle by increasing latency, the earlier
    started first among equals. *)
Fixpoint insert_by {A} (latency : A -> nat) (x : A) (l : list A) : list A :=
  match l with
  | [] => [x]
  | y :: l' => if latency y <? latency x then y :: insert_by latency x l' else x :: l
  end.

Definition settle_order {A} (latency : A -> nat) (l : list A) : list A :=
  fold_right (insert_by latency) [] l.

(** ** The repository tree *)

(** How one file behaves when the scanner gets to it: what [fs.readFile]
    answers, what the language model replies to the audit prompt for it, and
    how long its analysis takes. *)
Record file_behaviour := {
  read : result jsstring;
  reply : result jsstring;
  latency : nat
}.

(** An entry of a directory: its name and what [fs.lstat] and [fs.readdir]
    answer on it. *)
Inductive entry :=
| File (name : jsstring) (b : file_behaviour)
| Dir (name : jsstring) (listing : result (list entry))
| Broken (name : jsstring) (e : exn).   (* lstat rejects *)

Definition entry_name (f : entry) : jsstring :=
  match f with
  | File n _ | Dir n _ | Broken n _ => n
  end.

(** What [fs.readdir] answers on a directory. *)
Definition listing := result (list entry).

(** The ephemeral workspace [tempDir]: absent, or present with a listing. *)
Definition workspace := option listing.

(** [path.join(a, b)] of two segments without dots or separators to
    normalise, and [path.relative(from, to)] of a path below [from]. *)
Definition path_join (a b : jsstring) : jsstring := a ++ lit "/" ++ b.
Definition path_relative (from to : jsstring) : jsstring := skipn (length from + 1) to.

(** A discovered source file: its absolute path, with the behaviour of the
    file at that path. *)
Definition sol_file := (jsstring * file_behaviour)%type.

(** The message of line 152, without the rendering of the error object. *)
Definition could_not_read (startPath : jsstring) : jsstring :=
  lit "Could not read directory " ++ startPath ++ lit ": ".

(** The loop body of [findSolidityFiles] for one directory entry either
    completes, with the files it adds to [result] and what got logged
    below it, or throws. *)
Inductive visit :=
| Visited (found : list sol_file) (log : list event)
| Raised (e : exn).

Section FileFinder.

Variable visit_entry : entry -> visit.
Variable startPath : jsstring.

(** The [for ... of] loop under the [try], with the [catch] behind it:
    an exception ends the loop, is logged, and [result] is returned as
    it stands. *)
Fixpoint for_of_files (files : list entry) : list sol_file * list event :=
  match files with
  | [] => ([], [])
  | file :: rest =>
      match visit_entry file with
      | Raised _ => ([], [Logged (could_not_read startPath)])
      | Visited found log =>
          let '(found', log') := for_of_files rest in
          (found ++ found', log ++ log')
      end
  end.

(** The body of [findSolidityFiles], given what [fs.readdir(startPath)]
    answers. *)
Definition find_in (dir : listing) : list sol_file * list event :=
  match dir with
  | Throw _ => ([], [Logged (could_not_read startPath)])
  | Ok files => for_of_files files
  end.

End FileFinder.

Fixpoint visit_entry (startPath : jsstring) (file : entry) : visit :=
  let filename := path_join startPath (entry_name file) in
  match file with
  | Broken _ e => Raised e
  | Dir _ dir =>
      (* result.concat(await findSolidityFiles(filename)) *)
      let '(found, log) := find_in (visit_entry filename) filename dir in
      Visited found log
  | File _ b =>
      if endsWith (lit ".sol") filename then Visited [(filename, b)] [] else Visited [] []
  end.

(** 9. [findSolidityFiles(startPath)], given the listing of [startPath]. *)
Definition findSolidityFiles (startPath : jsstring) (dir : listing) : list sol_file * list event :=
  find_in (visit_entry startPath) startPath dir.

(** ** The handler's monad

    A computation of the handler reads and updates the workspace, appends
    to the trace of events, and returns or throws. The workspace and the
    trace survive a throw. *)

Definition M (A : Type) : Type := workspace -> result A * workspace * list event.

Definition ret {A} (a : A) : M A := fun w => (Ok a, w, []).

Definition throw {A} (e : exn) : M A := fun w => (Throw e, w, []).

Definition bindM {A B} (m : M A) (k : A -> M B) : M B :=
  fun w =>
    match m w with
    | (Ok a, w1, t1) => let '(r, w2, t2) := k a w1 in (r, w2, t1 ++ t2)
    | (Throw e, w1, t1) => (Throw e, w1, t1)
    end.

(** [try { m } catch (error) { handler }] *)
Definition try_catch {A} (m : M A) (handler : exn -> M A) : M A :=
  fun w =>
    match m w with
    | (Ok a, w1, t1) => (Ok a, w1, t1)
    | (Throw e, w1, t1) => let '(r, w2, t2) := handler e w1 in (r, w2, t1 ++ t2)
    end.

Definition emit (e : event) : M unit := fun w => (Ok tt, w, [e]).

Definition emit_all (t : list event) : M unit := fun w => (Ok tt, w, t).

(** Awaiting a promise whose outcome is known. *)
Definition await {A} (r : result A) : M A := fun w => (r, w, []).

Definition get_workspace : M workspace := fun w => (Ok w, w, []).

Definition set_workspace (w' : workspace) : M unit := fun _ => (Ok tt, w', []).

Notation "x <- m ;; k" := (bindM m (fun x => k))
  (at level 61, m at next level, right associativity) : js_scope.
Notation "m ;;; k" := (bindM m (fun _ => k))
  (at level 61, right associativity) : js_scope.

Definition result_of {A} (x : result A * workspace * list event) : result A := fst (fst x).
Definition workspace_of {A} (x : result A * workspace * list event) : workspace := snd (fst x).
Definition trace_of {A} (x : result A * workspace * list event) : list event := snd x.

(** ** The server *)

Section Server.

(** [JSON.parse]: the parsed value, or the [SyntaxError] it throws. *)
Variable JSON_parse : jsstring -> result json.

(** [__dirname], the directory of [index.js]. *)
Variable dirname : jsstring.

(** 1. [getStaticAnalysis], given the reply of the language model to the
    audit prompt. *)
Definition getStaticAnalysis (reply : result jsstring) : result json :=
  let* responseText := reply in
  JSON_parse (trim (remove_all (lit "```") (remove_all (lit "```json") responseText))).

(** 2. [getDynamicAnalysis], given the call of [honeypot_check.sh]. *)
Definition getDynamicAnalysis (run : exec_call) : result json :=
  let* stdout := execPromise run in
  JSON_parse stdout.

(** *** 8. The repository scanner *)

Definition tempDir : jsstring := path_join dirname (lit "temp_repo").
Definition BATCH_SIZE : nat := 5.
Definition DELAY_MS : Z := 2000.

Definition skipping (filePath : jsstring) : jsstring :=
  lit "Skipping analysis for " ++ path_relative tempDir filePath ++ lit ".".

(** The async callback of [batch.map], lines 121 to 128: what it pushes
    onto [findings] and what it logs. It never rejects. *)
Definition analyze_file (f : sol_file) : list json * list event :=
  let '(filePath, b) := f in
  match (let* fileContent := read b in
         if length (trim fileContent) <? 50 then Ok []
         else let* staticResult := getStaticAnalysis (reply b) in
              Ok [obj2 "file" (JStr (path_relative tempDir filePath))
                       "analysis" staticResult])
  with
  | Ok pushed => (pushed, [])
  | Throw _ => ([], [Logged (skipping filePath)])
  end.

(** [files.slice(i, j)] for [i <= j]. *)
Definition slice {A} (i j : nat) (l : list A) : list A := firstn (j - i) (skipn i l).

(** [await Promise.all(batch.map(...))]: the callbacks are started in
    order and complete by latency. *)
Definition run_batch (batch : list sol_file) : list json * list event :=
  let completed := settle_order (fun f => latency (snd f)) batch in
  (flat_map (fun f => fst (analyze_file f)) completed,
   BatchStarted (map fst batch)
     :: flat_map (fun f => snd (analyze_file f)) completed ++ [BatchSettled]).

(** One turn of the [for] loop of line 118 followed by the turns after it. *)
Definition turn (batch : list json * list event) (pause : list event)
    (later : list json * list event) : list json * list event :=
  (fst batch ++ fst later, snd batch ++ pause ++ snd later).

(** The [for] loop of line 118 from index [i] on: the entries pushed onto
    [findings] and the events, in order. *)
Equations? batch_loop (files : list sol_file) (i : nat) : list json * list event
  by wf (length files - i) lt :=
  batch_loop files i with lt_dec i (length files) := {
    | left _ =>
        turn (run_batch (slice i (i + BATCH_SIZE) files))
             (if i + BATCH_SIZE <? length files then [Paused DELAY_MS] else [])
             (batch_loop files (i + BATCH_SIZE));
    | right _ => ([], []) }.
Proof. unfold BATCH_SIZE. lia. Qed.

(** What the file system and git answer to the four calls that one scan
    makes on the workspace. *)
Record checkout := {
  stale_removal : result unit;   (* fs.remove(tempDir), line 111 *)
  creation : result unit;        (* fs.ensureDir(tempDir), line 112 *)
  clone : result listing;        (* simpleGit().clone(repoUrl, tempDir, ...), line 113 *)
  final_removal : result unit    (* fs.remove(tempDir), line 134 *)
}.

(** [await fs.remove(tempDir)]: the workspace is gone when the promise is
    fulfilled; when it is rejected the workspace is left (what a failed
    removal may have deleted below it is not followed). *)
Definition fs_remove (outcome : result unit) : M unit :=
  emit RemovalStarted ;;;
  await outcome ;;;
  set_workspace None.

(** [await fs.ensureDir(tempDir)]: an absent workspace is created empty. *)
Definition fs_ensureDir (outcome : result unit) : M unit :=
  emit CreationStarted ;;;
  await outcome ;;;
  w <- get_workspace ;;
  match w with
  | None => set_workspace (Some (Ok []))
  | Some _ => ret tt
  end.

(** The clone either rejects or leaves a tree in the workspace. *)
Definition git_clone (clone : result listing) : M unit :=
  emit CloneStarted ;;;
  tree <- await clone ;;
  set_workspace (Some tree).

(** [fs.readdir(tempDir)] *)
Definition readdir_workspace : M listing :=
  w <- get_workspace ;;
  ret (match w with
       | Some dir => dir
       | None => Throw (Error (lit "ENOENT: no such file or directory"))
       end).

Definition analyzeGitHubRepo (repo : checkout) : M (list json) :=
  fs_remove (stale_removal repo) ;;;
  fs_ensureDir (creation repo) ;;;
  git_clone (clone repo) ;;;
  dir <- readdir_workspace ;;
  let '(files, walk_log) := findSolidityFiles tempDir dir in
  emit_all walk_log ;;;
  let '(findings, scan_log) := batch_loop files 0 in
  emit_all scan_log ;;;
  fs_remove (final_removal repo) ;;;
  ret findings.

(** *** The address case *)

(** What the collaborators answer during one request. *)
Record environment := {
  source_lookup : result jsstring;     (* data.result[0].SourceCode of getsourcecode *)
  abi_lookup : result abi_reply;       (* the getabi request *)
  static_reply : result jsstring;      (* the model, on the audit prompt *)
  static_latency : nat;
  honeypot_run : exec_call;            (* honeypot_check.sh *)
  dynamic_latency : nat;
  generic_run : exec_call;             (* forge test --match-contract GenericFuzzer *)
  generic_latency : nat;
  testgen_reply : result jsstring;     (* the model, on the test-generation prompt *)
  write_test : result unit;            (* fs.writeFile(testFilePath, testCode) *)
  ai_run : exec_call;                  (* forge test --match-path test/AIGeneratedFuzzer.t.sol *)
  interpret_reply : result jsstring;   (* the model, on the interpretation prompt *)
  repository : checkout                (* the workspace and the clone of a scan *)
}.

Definition task_latency (env : environment) (t : task) : nat :=
  match t with
  | Static => static_latency env
  | Dynamic => dynamic_latency env
  | Generic => generic_latency env
  end.

(** The promise of an adapter, once settled: [Ok] is 'fulfilled'. *)
Definition task_outcome (env : environment) (t : task) : result json :=
  match t with
  | Static => getStaticAnalysis (static_reply env)
  | Dynamic => getDynamicAnalysis (honeypot_run env)
  | Generic => getGenericFuzzingAnalysis (generic_run env)
  end.

(** [await Promise.allSettled([...])] of lines 171 to 175: the three calls
    are made in order, then all three are awaited. *)
Definition allSettled (env : environment) : M (result json * result json * result json) :=
  emit_all (map Started [Static; Dynamic; Generic]) ;;;
  emit_all (map Settled (settle_order (task_latency env) [Static; Dynamic; Generic])) ;;;
  ret (task_outcome env Static, task_outcome env Dynamic, task_outcome env Generic).

(** [await f(...)] for a stage [f] of the AI-driven pipeline. *)
Definition run_stage {A} (s : stage) (outcome : result A) : M A :=
  emit (Entered s) ;;; emit (Left s) ;;; await outcome.

Definition fallback_dynamic : json :=
  obj2 "isHoneypot" (JBool false) "reason" (JStr (lit "Honeypot check failed.")).
Definition fallback_generic : json :=
  obj2 "status" (JStr (lit "incompatible")) "reason" (JStr (lit "Generic fuzzing failed.")).
Definition fallback_ai : json :=
  obj2 "status" (JStr (lit "incompatible"))
       "reason" (JStr (lit "AI-driven fuzzing process failed to run.")).

(** [settled.status === 'fulfilled' ? settled.value : fallback] *)
Definition value_or (settled : result json) (fallback : json) : json :=
  match settled with
  | Ok value => value
  | Throw _ => fallback
  end.

(** The body of the [try] of lines 177 to 186: the stages of the AI-driven
    pipeline that follow the ABI fetch. *)
Definition ai_pipeline (env : environment) : M json :=
  _ <- run_stage GenerateTest (generateFuzzTest (testgen_reply env)) ;;
  fuzzerOutput <- run_stage ExecuteTest (runAIGeneratedFuzzer (write_test env) (ai_run env)) ;;
  if JsString.eqb (fo_status fuzzerOutput) (lit "failed")
  then
    interpretation <- run_stage Interpret (interpretFuzzFailure (interpret_reply env)) ;;
    ret (obj2 "status" (JStr (lit "failed")) "reason" (JStr interpretation))
  else
    ret (obj2 "status" (JStr (fo_status fuzzerOutput)) "reason" (JStr (fo_log fuzzerOutput))).

(** Lines 176 to 188: [aiFuzzing]. *)
Definition ai_fuzzing (env : environment) : M json :=
  try_catch (ai_pipeline env) (fun _ => ret fallback_ai).

(** Lines 189 to 195: the report object, from the three settled promises
    and [aiFuzzing]. *)
Definition compose_report (staticResult dynamicResult genericFuzzResult : result json)
    (aiFuzzing : json) : json :=
  JObj [(lit "reportType", JStr (lit "address"));
        (lit "staticAnalysis", value_or staticResult JNull);
        (lit "dynamicAnalysis", value_or dynamicResult fallback_dynamic);
        (lit "genericFuzzing", value_or genericFuzzResult fallback_generic);
        (lit "aiFuzzing", aiFuzzing)].

(** Lines 167 to 195: the address case. *)
Definition address_case (env : environment) : M json :=
  emit FetchedSource ;;;
  sourceCode <- await (source_lookup env) ;;
  match sourceCode with
  | [] => throw (Error (lit "Source code not found."))
  | _ :: _ =>
      _ <- run_stage FetchABI (getContractAbi (abi_lookup env)) ;;
      settled <- allSettled env ;;
      let '(staticResult, dynamicResult, genericFuzzResult) := settled in
      aiFuzzing <- ai_fuzzing env ;;
      emit Composed ;;;
      ret (compose_report staticResult dynamicResult genericFuzzResult aiFuzzing)
  end.

(** *** The endpoint *)

(** [req.body]: a field that is absent is [None]. *)
Record request := {
  inputType : option json;
  input : option json
}.

(** [res.status(code).json(payload)]; [res.json] answers 200. *)
Record response := {
  status_code : Z;
  payload : json
}.

Definition error_response (code : Z) (message : string) : response :=
  {| status_code := code; payload := JObj [(lit "error", JStr (lit message))] |}.

Definition message_of (error : exn) : jsstring :=
  match error with
  | Error message => message
  | ExecError _ _ => lit "Command failed"
  end.

Definition is_type (name : string) (v : option json) : bool :=
  match v with
  | Some (JStr s) => JsString.eqb s (lit name)
  | _ => false
  end.

(** The body of the [try] of the handler, lines 160 to 209. *)
Definition analyze_body (env : environment) (req : request) : M response :=
  if negb (truthy (inputType req)) || negb (truthy (input req))
  then ret (error_response 400 "Input type and value are required.")
  else if is_type "address" (inputType req) then
    finalReport <- address_case env ;;
    ret {| status_code := 200; payload := finalReport |}
  else if is_type "github" (inputType req) then
    repoResults <- analyzeGitHubRepo (repository env) ;;
    ret {| status_code := 200;
           payload := obj2 "reportType" (JStr (lit "repo")) "files" (JArr repoResults) |}
  else if is_type "text" (inputType req) then
    emit (Started Static) ;;; emit (Settled Static) ;;;
    textResult <- await (getStaticAnalysis (static_reply env)) ;;
    ret {| status_code := 200;
           payload := obj2 "reportType" (JStr (lit "text"))
                           "files" (JArr [obj2 "file" (JStr (lit "PastedCode.sol"))
                                               "analysis" textResult]) |}
  else ret (error_response 400 "Invalid input type.").

(** [app.post('/analyze', ...)], lines 158 to 214: the body, and the
    [catch] of lines 210 to 213 around it. *)
Definition analyze (env : environment) (req : request) : M response :=
  try_catch (analyze_body env req)
    (fun error =>
       emit (Logged (lit "Analysis failed: " ++ message_of error)) ;;;
       ret (error_response 500 "Failed to complete analysis. Please check your input.")).

End Server.

(** ** The client's report boxes

    The two boxes of [AddressReport] in the client that read the fields of
    an address report: which box is drawn, by its class and its text. *)

(** [FuzzReportBox], lines 33 to 63 of the client: [statusClass] and
    [statusText], or [None] when the component renders nothing. *)
Definition FuzzReportBox (data : option json) : option (string * string) :=
  if negb (truthy data) then None
  else
    let legacy :=
      (* the older boolean 'passed' field *)
      if truthy (match data with Some o => get "passed" o | None => None end)
      then Some ("pass", "Passed")%string
      else Some ("fail", "FAILED")%string in
    match (match data with Some o => get "status" o | None => None end) with
    | Some (JStr status) =>
        if JsString.eqb status (lit "passed") then Some ("pass", "Passed")%string
        else if JsString.eqb status (lit "failed") then Some ("fail", "FAILED")%string
        else if JsString.eqb status (lit "incompatible")
             then Some ("incompatible", "Incompatible")%string
        else legacy
    | _ => legacy
    end.

(** The honeypot box, lines 78 to 82 of the client: the class of the box
    and its text, or [None] when nothing is rendered. The alert shows the
    [reason] of the report. *)
Definition honeypot_box (dynamicAnalysis : option json) : option (string * option json) :=
  if negb (truthy dynamicAnalysis) then None
  else
    match dynamicAnalysis with
    | Some o =>
        if truthy (get "isHoneypot" o) then Some ("fail"%string, get "reason" o)
        else Some ("pass"%string, Some (JStr (lit "Passed")))
    | None => None
    end.

(** * Notions used in the statements *)

(** ** Outcomes of the generic fuzzer *)

Definition passed_generic : json :=
  obj2 "status" (JStr (lit "passed")) "reason" (JStr (lit "All generic invariants passed.")).
Definition incompatible_generic : json :=
  obj2 "status" (JStr (lit "incompatible"))
       "reason" (JStr (lit "Generic test suite was not compatible with this contract.")).
Definition failed_generic (errorLog : jsstring) : json :=
  obj2 "status" (JStr (lit "failed"))
       "reason" (JStr (lit "Generic invariant violated. Details: " ++ errorLog)).

(** The log the adapter inspects: the captured standard output, or the
    captured standard error when the standard output is empty. *)
Definition inspected_log (run : exec_result) : jsstring := or_else (out run) (err run).

(** The design document's captured combined output of a run: all the
    process wrote, the standard output followed by the standard error. *)
Definition combined_output (run : exec_result) : jsstring := out run ++ err run.

(** A harness run that reports progress on the standard output and the
    compiler error on the standard error. *)
Definition compiler_error_on_stderr : exec_result :=
  {| exit_code := 1;
     out := lit "Compiling 1 files with Solc 0.8.20";
     err := lit "Error: Compiler error: contract does not match the interface" |}.

(** ** Address reports *)

(** What lines 176 to 188 leave in [aiFuzzing]. *)
Definition aiFuzzing_of (env : environment) : json :=
  value_or (result_of (ai_pipeline env None)) fallback_ai.

(** The report of an address request that gets as far as line 189. *)
Definition report_of (JSON_parse : jsstring -> result json) (env : environment) : json :=
  compose_report (task_outcome JSON_parse env Static) (task_outcome JSON_parse env Dynamic)
                 (task_outcome JSON_parse env Generic) (aiFuzzing_of env).

Definition adapters_trace (env : environment) : list event :=
  map Started [Static; Dynamic; Generic]
  ++ map Settled (settle_order (task_latency env) [Static; Dynamic; Generic]).

Definition internal_error : response :=
  error_response 500 "Failed to complete analysis. Please check your input.".

(** A stage that is called and awaited: it is left before anything else
    is entered. *)
Definition awaited (s : stage) : list event := [Entered s; Left s].

(** The key of the report under which an adapter's result is stored, and
    the sentinel stored when the adapter failed. *)
Definition report_key (t : task) : string :=
  match t with
  | Static => "staticAnalysis"
  | Dynamic => "dynamicAnalysis"
  | Generic => "genericFuzzing"
  end.

Definition sentinel (t : task) : json :=
  match t with
  | Static => JNull
  | Dynamic => fallback_dynamic
  | Generic => fallback_generic
  end.

(** The same environment with another behaviour of the language model on
    the audit prompt: another reply, or a failure, after another delay. *)
Definition with_static (r : result jsstring) (delay : nat) (env : environment) : environment :=
  {| source_lookup := source_lookup env;
     abi_lookup := abi_lookup env;
     static_reply := r;
     static_latency := delay;
     honeypot_run := honeypot_run env;
     dynamic_latency := dynamic_latency env;
     generic_run := generic_run env;
     generic_latency := generic_latency env;
     testgen_reply := testgen_reply env;
     write_test := write_test env;
     ai_run := ai_run env;
     interpret_reply := interpret_reply env;
     repository := repository env |}.

(** ** Sample requests *)

Module Sample.

(** A stand-in for [JSON.parse] that knows one text. *)
Definition parse (text : jsstring) : result json :=
  if JsString.eqb text (lit "{}") then Ok (JObj [])
  else Throw (Error (lit "Unexpected token in JSON")).

Definition dirname : jsstring := lit "/srv/server".

Definition passing : exec_result := {| exit_code := 0; out := lit "{}"; err := [] |}.

Definition failing : exec_result :=
  {| exit_code := 1; out := lit "[FAIL. Reason: assertion failed] testTransferFuzz(uint256)"; err := [] |}.

Definition test_reply : jsstring :=
  lit "Here is the test:" ++ LF ++ lit "```solidity" ++ LF
    ++ lit "contract AIGeneratedFuzzer is Test {}" ++ LF ++ lit "```".

(** Every collaborator answers; the generated test fails and is interpreted. *)
Definition env : environment :=
  {| source_lookup := Ok (lit "contract C {}");
     abi_lookup := Ok {| abi_status := lit "1"; abi_result := lit "[]" |};
     static_reply := Ok (lit "```json{}```");
     static_latency := 3;
     honeypot_run := Ran passing;
     dynamic_latency := 1;
     generic_run := Ran passing;
     generic_latency := 2;
     testgen_reply := Ok test_reply;
     write_test := Ok tt;
     ai_run := Ran failing;
     interpret_reply := Ok (lit "transfer() lets the balance underflow.");
     repository := {| stale_removal := Ok tt;
                      creation := Ok tt;
                      clone := Throw (Error (lit "repository not found"));
                      final_removal := Ok tt |} |}.

(** The language model is out of quota on the audit prompt. *)
Definition env_static_down : environment :=
  with_static (Throw (Error (lit "429 Too Many Requests"))) 0 env.

(** The explorer has no ABI for the address. *)
Definition env_no_abi : environment :=
  {| source_lookup := source_lookup env;
     abi_lookup := Ok {| abi_status := lit "0";
                         abi_result := lit "Contract source code not verified" |};
     static_reply := static_reply env;
     static_latency := static_latency env;
     honeypot_run := honeypot_run env;
     dynamic_latency := dynamic_latency env;
     generic_run := generic_run env;
     generic_latency := generic_latency env;
     testgen_reply := testgen_reply env;
     write_test := write_test env;
     ai_run := ai_run env;
     interpret_reply := interpret_reply env;
     repository := repository env |}.

(** The language model answers the test-generation prompt with prose. *)
Definition env_no_test : environment :=
  {| source_lookup := source_lookup env;
     abi_lookup := abi_lookup env;
     static_reply := static_reply env;
     static_latency := static_latency env;
     honeypot_run := honeypot_run env;
     dynamic_latency := dynamic_latency env;
     generic_run := generic_run env;
     generic_latency := generic_latency env;
     testgen_reply := Ok (lit "I cannot write a test for this ABI.");
     write_test := write_test env;
     ai_run := ai_run env;
     interpret_reply := interpret_reply env;
     repository := repository env |}.

Definition address_request : request :=
  {| inputType := Some (JStr (lit "address"));
     input := Some (JStr (lit "0x1f9840a85d5aF5bf1D1762F925BDADdC4201F984")) |}.

Definition report (e : environment) : response :=
  {| status_code := 200; payload := report_of parse e |}.

End Sample.

(** ** Starting together *)

(** The design document has the three adapters and the pipeline started
    together: the four calls are made one after the other, with nothing
    awaited in between. [first] is the stage taken as the pipeline's first,
    and so as its start. *)
Definition is_start (first : stage) (e : event) : bool :=
  match e, first with
  | Started _, _ => true
  | Entered FetchABI, FetchABI => true
  | Entered GenerateTest, GenerateTest => true
  | Entered ExecuteTest, ExecuteTest => true
  | Entered Interpret, Interpret => true
  | _, _ => false
  end.

Fixpoint from_first_start (first : stage) (trace : list event) : list event :=
  match trace with
  | [] => []
  | e :: rest => if is_start first e then trace else from_first_start first rest
  end.

Fixpoint leading_starts (first : stage) (trace : list event) : list event :=
  match trace with
  | [] => []
  | e :: rest => if is_start first e then e :: leading_starts first rest else []
  end.

(** The first start of the trace is followed at once by the three others. *)
Definition started_together (first : stage) (trace : list event) : bool :=
  length (leading_starts first (from_first_start first trace)) =? 4.

(** ** Fenced blocks *)

(** The text between the first two fence markers of [s], and what follows
    the second marker. *)
Definition first_block (s : jsstring) : option (jsstring * jsstring) :=
  match indexOf fence s with
  | None => None
  | Some i =>
      let rest := skipn (i + length fence) s in
      match indexOf fence rest with
      | None => None
      | Some j => Some (firstn j rest, skipn (j + length fence) rest)
      end
  end.

(** The inner text of the fenced block of a response that contains exactly
    one fenced block. *)
Definition sole_block (s : jsstring) : option jsstring :=
  match first_block s with
  | None => None
  | Some (inner, after) =>
      match first_block after with
      | None => Some inner
      | Some _ => None
      end
  end.

(** A response with one fenced block, which is not marked as Solidity. *)
Definition plain_fenced_reply : jsstring :=
  lit "```" ++ LF ++ lit "contract AIGeneratedFuzzer is Test {}" ++ LF ++ lit "```".

(** ** Batches and pauses *)

(** What the rate limiter sees of a trace: batches, with their sizes, and
    pauses, with their lengths. *)
Inductive beat :=
| Batch (size : nat)
| Pause (ms : Z).

Definition beat_of (e : event) : list beat :=
  match e with
  | BatchStarted paths => [Batch (length paths)]
  | Paused ms => [Pause ms]
  | _ => []
  end.

Definition rhythm (trace : list event) : list beat := flat_map beat_of trace.

(** The batches of a trace, each with the paths handed to it, and the
    pauses of a trace. *)
Definition batches (trace : list event) : list (list jsstring) :=
  flat_map (fun e => match e with BatchStarted paths => [paths] | _ => [] end) trace.

Definition pauses (trace : list event) : list Z :=
  flat_map (fun e => match e with Paused ms => [ms] | _ => [] end) trace.

(** [x1; sep; x2; sep; ...; xn] *)
Fixpoint intersperse {A} (sep : A) (l : list A) : list A :=
  match l with
  | [] => []
  | x :: l' =>
      match l' with
      | [] => [x]
      | _ :: _ => x :: sep :: intersperse sep l'
      end
  end.

(** The sizes 5, 5, ..., [n mod 5] of the batches for [n] files. *)
Definition batch_sizes (n : nat) : list nat :=
  repeat 5 (n / 5) ++ (if n mod 5 =? 0 then [] else [n mod 5]).

(** ceil(n / d) *)
Definition ceil_div (n d : nat) : nat := (n + d - 1) / d.

(** What is seen of a trace when the end of each batch is followed too:
    a batch is started, [Promise.all] of the batch settles, the loop
    pauses. *)
Inductive tick :=
| Opens (size : nat)
| Closes
| Rests (ms : Z).

Definition tick_of (e : event) : list tick :=
  match e with
  | BatchStarted paths => [Opens (length paths)]
  | BatchSettled => [Closes]
  | Paused ms => [Rests ms]
  | _ => []
  end.

Definition timeline (trace : list event) : list tick := flat_map tick_of trace.

(** Batches of the given sizes run one after the other: each one settles
    before the pause that follows it, and the next one is started after
    that pause. *)
Fixpoint one_after_the_other (pause : Z) (sizes : list nat) : list tick :=
  match sizes with
  | [] => []
  | n :: rest =>
      Opens n :: Closes
        :: match rest with
           | [] => []
           | _ :: _ => Rests pause :: one_after_the_other pause rest
           end
  end.

(** A scan that gets as far as the file walk: the stale workspace is
    removed, the directory is created, and the clone leaves the tree [dir]
    in it. *)
Definition prepared (repo : checkout) (dir : listing) : Prop :=
  is_ok (stale_removal repo) = true /\
  is_ok (creation repo) = true /\
  clone repo = Ok dir.


Definition sizes_of (beats : list beat) : list nat :=
  flat_map (fun b => match b with Batch n => [n] | Pause _ => [] end) beats.

Definition pauses_of (beats : list beat) : list Z :=
  flat_map (fun b => match b with Batch _ => [] | Pause ms => [ms] end) beats.

(** ** Repository trees *)

(** The tree in which every directory that cannot be read is replaced by
    an empty directory. *)
Fixpoint as_empty_subtree (file : entry) : entry :=
  match file with
  | Dir name (Ok files) => Dir name (Ok (map as_empty_subtree files))
  | Dir name (Throw _) => Dir name (Ok [])
  | File _ _ | Broken _ _ => file
  end.

Definition unreadable_as_empty (dir : listing) : listing :=
  match dir with
  | Ok files => Ok (map as_empty_subtree files)
  | Throw _ => Ok []
  end.

(** A file on which the scanner's callback throws: it cannot be read, or
    it is long enough to be analysed and its analysis fails. *)
Definition file_fails (JSON_parse : jsstring -> result json) (f : sol_file) : bool :=
  match read (snd f) with
  | Throw _ => true
  | Ok fileContent =>
      negb (length (trim fileContent) <? 50)
      && negb (is_ok (getStaticAnalysis JSON_parse (reply (snd f))))
  end.

Definition is_logged (e : event) : bool :=
  match e with Logged _ => true | _ => false end.

Definition visit_log (v : visit) : list event :=
  match v with Visited _ log => log | Raised _ => [] end.

Definition visit_found (v : visit) : option (list sol_file) :=
  match v with Visited found _ => Some found | Raised _ => None end.

(** ** A sample repository *)

Module SampleRepo.

Definition token_source : jsstring :=
  lit "pragma solidity ^0.8.20; contract Token { uint256 public totalSupply; }".

(** A file that is read and analysed. *)
Definition sound (delay : nat) : file_behaviour :=
  {| read := Ok token_source; reply := Ok (lit "{}"); latency := delay |}.

(** A file that cannot be read. *)
Definition unreadable : file_behaviour :=
  {| read := Throw (Error (lit "EACCES: permission denied"));
     reply := Ok (lit "{}"); latency := 0 |}.

(** A file on which the model does not answer with JSON. *)
Definition unparsable : file_behaviour :=
  {| read := Ok token_source; reply := Ok (lit "Sorry, I cannot help."); latency := 2 |}.

(** A file that is too short to be analysed. *)
Definition stub : file_behaviour :=
  {| read := Ok (lit "// TODO"); reply := Ok (lit "{}"); latency := 1 |}.

(** Twelve qualifying files, eleven of them in a directory that is read,
    next to a directory that cannot be read. *)
Definition tree : listing :=
  Ok [File (lit "README.md") stub;
      Dir (lit "contracts")
          (Ok [File (lit "Token.sol") (sound 4);
               File (lit "Vault.sol") unreadable;
               File (lit "Oracle.sol") unparsable;
               File (lit "Stub.sol") stub;
               File (lit "A.sol") (sound 1);
               File (lit "B.sol") (sound 1);
               File (lit "C.sol") (sound 1);
               File (lit "D.sol") (sound 1);
               File (lit "E.sol") (sound 1);
               File (lit "F.sol") (sound 1);
               File (lit "G.sol") (sound 1)]);
      Dir (lit "node_modules") (Throw (Error (lit "EACCES: permission denied")));
      File (lit "Deploy.sol") (sound 1)].

Definition vault : sol_file :=
  (lit "/srv/server/temp_repo/contracts/Vault.sol", unreadable).

(** The scan of [tree] when every call on the workspace succeeds. *)
Definition checked_out : checkout :=
  {| stale_removal := Ok tt;
     creation := Ok tt;
     clone := Ok tree;
     final_removal := Ok tt |}.

(** The scan of [tree] when the final removal stops at the directory
    that cannot be read. *)
Definition locked : checkout :=
  {| stale_removal := Ok tt;
     creation := Ok tt;
     clone := Ok tree;
     final_removal :=
       Throw (Error (lit "EACCES: permission denied, scandir '/srv/server/temp_repo/node_modules'")) |}.


End SampleRepo.

(** ** Notions used in the further properties *)

(** The types the [switch] of line 165 knows. *)
Definition known_type (v : option json) : bool :=
  is_type "address" v || is_type "github" v || is_type "text" v.

Definition missing_field : response :=
  error_response 400 "Input type and value are required.".

Definition invalid_type : response :=
  error_response 400 "Invalid input type.".

(** The error that ends an address request in the [catch] of line 210, if
    any: the error of the source lookup, the missing source of line 168, or
    the error of the ABI fetch of line 170. *)
Definition address_failure (env : environment) : option exn :=
  match source_lookup env with
  | Throw e => Some e
  | Ok [] => Some (Error (lit "Source code not found."))
  | Ok (_ :: _) =>
      match getContractAbi (abi_lookup env) with
      | Throw e => Some e
      | Ok _ => None
      end
  end.

(** The error that ends a repository scan, if any: the first of its four
    calls on the workspace that fails. *)
Definition scan_failure (repo : checkout) : option exn :=
  match stale_removal repo with
  | Throw e => Some e
  | Ok _ =>
      match creation repo with
      | Throw e => Some e
      | Ok _ =>
          match clone repo with
          | Throw e => Some e
          | Ok _ =>
              match final_removal repo with
              | Throw e => Some e
              | Ok _ => None
              end
          end
      end
  end.

(** The error that the [catch] of line 210 gets, if any, by the case of
    the [switch] of line 165. *)
Definition caught (JSON_parse : jsstring -> result json) (env : environment) (req : request)
    : option exn :=
  if negb (truthy (inputType req)) || negb (truthy (input req)) then None
  else if is_type "address" (inputType req) then address_failure env
  else if is_type "github" (inputType req) then scan_failure (repository env)
  else if is_type "text" (inputType req) then
    match getStaticAnalysis JSON_parse (static_reply env) with
    | Throw e => Some e
    | Ok _ => None
    end
  else None.

(** The answer of the handler, which it always gives. *)
Definition answer_of (x : result response * workspace * list event) : response :=
  match result_of x with
  | Ok resp => resp
  | Throw _ => internal_error
  end.

(** The three values of the [status] of a fuzz outcome. *)
Definition fuzz_status (status : jsstring) : bool :=
  JsString.eqb status (lit "passed") || JsString.eqb status (lit "failed")
  || JsString.eqb status (lit "incompatible").

(** An object [{status, reason}] with one of the three statuses and a
    string as its reason. *)
Definition fuzz_outcome (o : json) : Prop :=
  exists status reason,
    o = obj2 "status" (JStr status) "reason" (JStr reason) /\ fuzz_status status = true.

(** The box the client draws for a status of the server. *)
Definition box_of_status (status : jsstring) : option (string * string) :=
  if JsString.eqb status (lit "passed") then Some ("pass", "Passed")%string
  else if JsString.eqb status (lit "failed") then Some ("fail", "FAILED")%string
  else Some ("incompatible", "Incompatible")%string.

Definition entered (s : stage) (trace : list event) : bool :=
  existsb (fun e => match e, s with
                    | Entered FetchABI, FetchABI
                    | Entered GenerateTest, GenerateTest
                    | Entered ExecuteTest, ExecuteTest
                    | Entered Interpret, Interpret => true
                    | _, _ => false
                    end) trace.

(** The harness ran and failed, and not on a compiler error. *)
Definition genuine_failure (call : exec_call) : bool :=
  match call with
  | Ran run => negb (Z.eqb (exit_code run) 0) && negb (has_compiler_marker (inspected_log run))
  | NotRun _ => false
  end.

(** The backtick. *)
Definition backtick : N := 96%N.

(** A text without any backtick. *)
Definition no_backtick (s : jsstring) : bool := forallb (fun c => negb (N.eqb c backtick)) s.

(** A text of white space only. *)
Definition blank (s : jsstring) : bool := forallb isWhiteSpace s.

(** A text that does not start with white space. *)
Definition head_ok (s : jsstring) : Prop :=
  match s with
  | [] => True
  | c :: _ => isWhiteSpace c = false
  end.

(** An entry on which [fs.lstat] fails. *)
Definition is_broken (file : entry) : bool :=
  match file with Broken _ _ => true | _ => false end.

(** A path found below [startPath]: it ends in [.sol] and is [startPath]
    joined with the path relative to it. *)
Definition found_below (startPath : jsstring) (f : sol_file) : Prop :=
  endsWith (lit ".sol") (fst f) = true /\
  path_join startPath (path_relative startPath (fst f)) = fst f.

(** The entry the scanner pushes for a file that went through. *)
Definition file_entry (dirname : jsstring) (filePath : jsstring) (analysis : json) : json :=
  obj2 "file" (JStr (path_relative (tempDir dirname) filePath)) "analysis" analysis.

(** The pause between two parts of a list of files, when neither is empty. *)
Definition pause_between {A} (a b : list A) : list event :=
  match a, b with
  | _ :: _, _ :: _ => [Paused 2000]
  | _, _ => []
  end.

(** ** More samples *)

Module SampleMore.

(** A request whose type is a number. *)
Definition numeric_type_request : request :=
  {| inputType := Some (JNum 5); input := Some (JStr (lit "0xabc")) |}.

Definition text_request : request :=
  {| inputType := Some (JStr (lit "text")); input := Some (JStr (lit "contract C {}")) |}.


(** The model answers the test-generation prompt with a block that holds
    a line break and nothing else. *)
Definition env_blank_test : environment :=
  {| source_lookup := source_lookup Sample.env;
     abi_lookup := abi_lookup Sample.env;
     static_reply := static_reply Sample.env;
     static_latency := static_latency Sample.env;
     honeypot_run := honeypot_run Sample.env;
     dynamic_latency := dynamic_latency Sample.env;
     generic_run := generic_run Sample.env;
     generic_latency := generic_latency Sample.env;
     testgen_reply := Ok (lit "```solidity" ++ LF ++ lit "```");
     write_test := write_test Sample.env;
     ai_run := ai_run Sample.env;
     interpret_reply := interpret_reply Sample.env;
     repository := repository Sample.env |}.

(** The forge command of the generic fuzzer cannot be spawned. *)
Definition env_no_forge : environment :=
  {| source_lookup := source_lookup Sample.env;
     abi_lookup := abi_lookup Sample.env;
     static_reply := static_reply Sample.env;
     static_latency := static_latency Sample.env;
     honeypot_run := honeypot_run Sample.env;
     dynamic_latency := dynamic_latency Sample.env;
     generic_run := NotRun (lit "spawn ENOMEM");
     generic_latency := generic_latency Sample.env;
     testgen_reply := testgen_reply Sample.env;
     write_test := write_test Sample.env;
     ai_run := ai_run Sample.env;
     interpret_reply := interpret_reply Sample.env;
     repository := repository Sample.env |}.

Definition two_blocks_reply : jsstring :=
  lit "Here is the test:" ++ lit "```solidity" ++ (LF ++ lit "contract T {}" ++ LF)
    ++ lit "```" ++ lit " and a variant: ```solidity contract U {}```".

Definition five_files : list sol_file :=
  map (fun name => (lit name, SampleRepo.sound 1))
      ["/r/A.sol"; "/r/B.sol"; "/r/C.sol"; "/r/D.sol"; "/r/E.sol"]%string.

Definition two_files : list sol_file :=
  [(lit "/r/F.sol", SampleRepo.unreadable); (lit "/r/G.sol", SampleRepo.sound 0)].

Definition token : sol_file :=
  (lit "/srv/server/temp_repo/contracts/Token.sol", SampleRepo.sound 4).

End SampleMore.


(** * Properties *)

(** ** Request validation *)

Section Dispatcher.

Variable JSON_parse : jsstring -> result json.
Variable dirname : jsstring.

Lemma is_type_truthy name v : is_type name v = true -> name <> EmptyString -> truthy v = true.
Proof.
  destruct v as [[| | |s| |]|]; simpl; try discriminate.
  destruct s; [|reflexivity].
  destruct name; [congruence|discriminate].
Qed.

Lemma analyze_address env req w :
  is_type "address" (inputType req) = true ->
  truthy (input req) = true ->
  analyze JSON_parse dirname env req w =
  try_catch
    (finalReport <- address_case JSON_parse env ;;
     ret {| status_code := 200; payload := finalReport |})
    (fun error =>
       emit (Logged (lit "Analysis failed: " ++ message_of error)) ;;;
       ret (error_response 500 "Failed to complete analysis. Please check your input.")) w.
Proof.
  intros Hty Hin. unfold analyze, analyze_body.
  rewrite (is_type_truthy _ _ Hty) by discriminate.
  rewrite Hin, Hty. reflexivity.
Qed.

(** Line 161: a falsy field ends the request at once. *)
Lemma analyze_missing_field env req w :
  truthy (inputType req) && truthy (input req) = false ->
  analyze JSON_parse dirname env req w =
  (Ok (error_response 400 "Input type and value are required."), w, []).
Proof.
  intros H. unfold analyze, analyze_body, try_catch.
  replace (negb (truthy (inputType req)) || negb (truthy (input req))) with true.
  - reflexivity.
  - rewrite <- negb_andb, H. reflexivity.
Qed.

End Dispatcher.

(** C10: a request whose [input] is present but is the empty string, or
    whose [inputType] is the empty string, is answered with status 400 and
    [{error: 'Input type and value are required.'}], whatever the
    collaborators would answer; nothing is called (the trace is empty) and
    the workspace is left as it was. *)
Theorem empty_string_field_is_rejected :
  forall JSON_parse dirname env req w,
    input req = Some (JStr []) \/ inputType req = Some (JStr []) ->
    analyze JSON_parse dirname env req w =
    (Ok (error_response 400 "Input type and value are required."), w, []).
Proof.
  intros P d env req w H. apply analyze_missing_field.
  destruct H as [-> | ->]; simpl; [apply andb_false_r | reflexivity].
Qed.

Lemma empty_string_field_is_rejected_witness :
  analyze (fun _ => Ok JNull) (lit "/srv")
          {| source_lookup := Ok (lit "contract C {}");
             abi_lookup := Ok {| abi_status := lit "1"; abi_result := lit "[]" |};
             static_reply := Ok (lit "{}"); static_latency := 1;
             honeypot_run := Ran {| exit_code := 0; out := lit "{}"; err := [] |};
             dynamic_latency := 1;
             generic_run := Ran {| exit_code := 0; out := []; err := [] |};
             generic_latency := 1;
             testgen_reply := Ok (lit "```solidity contract T {}```");
             write_test := Ok tt;
             ai_run := Ran {| exit_code := 0; out := []; err := [] |};
             interpret_reply := Ok [];
             repository := {| stale_removal := Ok tt; creation := Ok tt;
                              clone := Ok (Ok []); final_removal := Ok tt |} |}
          {| inputType := Some (JStr (lit "address")); input := Some (JStr []) |}
          (Some (Ok []))
  = (Ok (error_response 400 "Input type and value are required."), Some (Ok []), []).
Proof.
  apply empty_string_field_is_rejected. left. reflexivity.
Defined.

(** ** The generic invariant fuzzer adapter *)

(** C6, as stated, fails: the run [compiler_error_on_stderr] exits non-zero
    and its combined output contains a compiler-error marker, yet the
    adapter answers 'failed', not 'incompatible'. *)
Lemma generic_fuzzer_ignores_stderr_marker :
  exit_code compiler_error_on_stderr <> 0%Z /\
  has_compiler_marker (combined_output compiler_error_on_stderr) = true /\
  getGenericFuzzingAnalysis (Ran compiler_error_on_stderr)
    = Ok (failed_generic (lit "Compiling 1 files with Solc 0.8.20")) /\
  getGenericFuzzingAnalysis (Ran compiler_error_on_stderr) <> Ok incompatible_generic.
Proof.
  repeat split; try reflexivity; vm_compute; discriminate.
Qed.

(** C6, amended: exit code zero yields 'passed'; a non-zero exit whose
    inspected log (the standard output, or the standard error when the
    standard output is empty) contains 'Compiler error' or 'compilation
    failed' yields exactly the 'incompatible' outcome; any other non-zero
    exit yields 'failed' with that log appended to the reason. *)
Theorem generic_fuzzer_classification :
  forall run,
    (exit_code run = 0%Z -> getGenericFuzzingAnalysis (Ran run) = Ok passed_generic) /\
    (exit_code run <> 0%Z -> has_compiler_marker (inspected_log run) = true ->
     getGenericFuzzingAnalysis (Ran run) = Ok incompatible_generic) /\
    (exit_code run <> 0%Z -> has_compiler_marker (inspected_log run) = false ->
     getGenericFuzzingAnalysis (Ran run) = Ok (failed_generic (inspected_log run))).
Proof.
  intros run. unfold getGenericFuzzingAnalysis, execPromise, inspected_log.
  repeat split.
  - intros ->. reflexivity.
  - intros Hc Hm. apply Z.eqb_neq in Hc. rewrite Hc. simpl. rewrite Hm. reflexivity.
  - intros Hc Hm. apply Z.eqb_neq in Hc. rewrite Hc. simpl. rewrite Hm. reflexivity.
Qed.

Lemma generic_fuzzer_classification_witness :
  getGenericFuzzingAnalysis (Ran {| exit_code := 0; out := lit "ok"; err := [] |})
    = Ok passed_generic /\
  getGenericFuzzingAnalysis (Ran {| exit_code := 1; out := []; err := lit "Compiler error" |})
    = Ok incompatible_generic /\
  getGenericFuzzingAnalysis (Ran compiler_error_on_stderr)
    = Ok (failed_generic (inspected_log compiler_error_on_stderr)).
Proof.
  split; [|split].
  - apply (proj1 (generic_fuzzer_classification _)). reflexivity.
  - apply (proj1 (proj2 (generic_fuzzer_classification _))); [simpl; lia | reflexivity].
  - apply (proj2 (proj2 (generic_fuzzer_classification _))); [simpl; lia | reflexivity].
Defined.

(** ** The address case *)

Section AddressCase.

Variable JSON_parse : jsstring -> result json.
Variable dirname : jsstring.

Local Abbreviation address_case := (address_case JSON_parse).
Local Abbreviation task_outcome := (task_outcome JSON_parse).
Local Abbreviation analyze := (analyze JSON_parse dirname).
Local Abbreviation report_of := (report_of JSON_parse).

(** The pipeline neither reads nor writes the workspace. *)
Lemma ai_pipeline_frame env w :
  ai_pipeline env w = (result_of (ai_pipeline env None), w, trace_of (ai_pipeline env None)).
Proof.
  unfold ai_pipeline, run_stage, bindM, emit, await, ret, result_of, trace_of.
  destruct (generateFuzzTest (testgen_reply env)); simpl; [|reflexivity].
  destruct (runAIGeneratedFuzzer (write_test env) (ai_run env)) as [fo|]; simpl; [|reflexivity].
  destruct (JsString.eqb (fo_status fo) (lit "failed")); simpl; [|reflexivity].
  destruct (interpretFuzzFailure (interpret_reply env)); reflexivity.
Qed.

Lemma ai_fuzzing_catches env w :
  ai_fuzzing env w = (Ok (aiFuzzing_of env), w, trace_of (ai_pipeline env None)).
Proof.
  unfold ai_fuzzing, try_catch, aiFuzzing_of. rewrite ai_pipeline_frame.
  destruct (result_of (ai_pipeline env None)); simpl; [reflexivity|].
  rewrite app_nil_r. reflexivity.
Qed.

(** The address case when source and ABI are there. *)
Lemma address_case_report env w c s abi :
  source_lookup env = Ok (c :: s) ->
  getContractAbi (abi_lookup env) = Ok abi ->
  address_case env w =
  (Ok (report_of env), w,
   [FetchedSource; Entered FetchABI; Left FetchABI]
     ++ adapters_trace env ++ trace_of (ai_pipeline env None) ++ [Composed]).
Proof.
  intros Hsrc Habi.
  unfold address_case, bindM at 1 2, emit, await. rewrite Hsrc. cbn iota beta.
  unfold run_stage, bindM at 1 2 3, emit, await. rewrite Habi. cbn iota beta.
  unfold allSettled, bindM at 1 2 3 4, emit_all, ret. cbn iota beta.
  unfold bindM at 1. rewrite ai_fuzzing_catches.
  unfold bindM, emit, ret. cbn iota beta.
  unfold report_of, adapters_trace. f_equal.
  cbn [app]. rewrite !app_nil_r, <- !app_assoc. reflexivity.
Qed.

(** The address case when the source is missing or the ABI fetch throws. *)
Lemma address_case_throws env w :
  (forall c s, source_lookup env <> Ok (c :: s)) \/
  (exists e, getContractAbi (abi_lookup env) = Throw e) ->
  exists e t, address_case env w = (Throw e, w, t).
Proof.
  unfold address_case, bindM at 1 2, emit, await.
  destruct (source_lookup env) as [[|c s]|e0]; cbn iota beta.
  - intros _. eexists _, _. reflexivity.
  - intros [H | [e H]]; [exfalso; eapply H; reflexivity|].
    unfold run_stage, bindM at 1 2 3, emit, await. rewrite H. cbn iota beta.
    eexists _, _. reflexivity.
  - intros _. eexists _, _. reflexivity.
Qed.

(** An address request is answered with the report when source and ABI
    are there... *)
Lemma analyze_address_report env req w c s abi :
  is_type "address" (inputType req) = true ->
  truthy (input req) = true ->
  source_lookup env = Ok (c :: s) ->
  getContractAbi (abi_lookup env) = Ok abi ->
  analyze env req w =
  (Ok {| status_code := 200; payload := report_of env |}, w,
   [FetchedSource; Entered FetchABI; Left FetchABI]
     ++ adapters_trace env ++ trace_of (ai_pipeline env None) ++ [Composed]).
Proof.
  intros Hty Hin Hsrc Habi. rewrite analyze_address by assumption.
  unfold try_catch, bindM. rewrite (address_case_report env w c s abi Hsrc Habi).
  unfold ret. rewrite app_nil_r. reflexivity.
Qed.

(** ... and with the generic error otherwise. *)
Lemma analyze_address_error env req w :
  is_type "address" (inputType req) = true ->
  truthy (input req) = true ->
  (forall c s, source_lookup env <> Ok (c :: s)) \/
  (exists e, getContractAbi (abi_lookup env) = Throw e) ->
  result_of (analyze env req w) = Ok internal_error /\
  workspace_of (analyze env req w) = w.
Proof.
  intros Hty Hin H. rewrite analyze_address by assumption.
  destruct (address_case_throws env w H) as (e & t & He).
  unfold try_catch, bindM. rewrite He. split; reflexivity.
Qed.

(** An address request that is answered with status 200 had its source
    and its ABI, and is answered with [report_of]. *)
Lemma analyze_address_200 env req w resp :
  is_type "address" (inputType req) = true ->
  result_of (analyze env req w) = Ok resp ->
  status_code resp = 200%Z ->
  (exists c s, source_lookup env = Ok (c :: s)) /\
  (exists abi, getContractAbi (abi_lookup env) = Ok abi) /\
  analyze env req w =
  (Ok {| status_code := 200; payload := report_of env |}, w,
   [FetchedSource; Entered FetchABI; Left FetchABI]
     ++ adapters_trace env ++ trace_of (ai_pipeline env None) ++ [Composed]) /\
  payload resp = report_of env.
Proof.
  intros Hty Hres Hcode.
  destruct (truthy (input req)) eqn:Hin.
  2:{ exfalso. rewrite analyze_missing_field in Hres by (rewrite Hin; apply andb_false_r).
      injection Hres as <-. discriminate Hcode. }
  destruct (source_lookup env) as [[|c s]|e0] eqn:Hsrc.
  1,3: exfalso;
       destruct (analyze_address_error env req w Hty Hin) as [He _];
       [left; intros c' s'; rewrite Hsrc; discriminate
       | rewrite He in Hres; injection Hres as <-; discriminate Hcode].
  destruct (getContractAbi (abi_lookup env)) as [abi|e0] eqn:Habi.
  2:{ exfalso. destruct (analyze_address_error env req w Hty Hin) as [He _].
      - right. exists e0. exact Habi.
      - rewrite He in Hres. injection Hres as <-. discriminate Hcode. }
  pose proof (analyze_address_report env req w c s abi Hty Hin Hsrc Habi) as Hrep.
  rewrite Hrep in Hres. injection Hres as <-.
  repeat split; eauto.
Qed.

Lemma insert_by_perm {A} (latency : A -> nat) x l :
  Permutation (insert_by latency x l) (x :: l).
Proof.
  induction l as [|y l IH]; simpl; [reflexivity|].
  destruct (latency y <? latency x); [|reflexivity].
  rewrite IH. apply perm_swap.
Qed.

Lemma settle_order_perm {A} (latency : A -> nat) l :
  Permutation (settle_order latency l) l.
Proof.
  induction l as [|x l IH]; simpl; [reflexivity|].
  rewrite insert_by_perm. constructor. exact IH.
Qed.

(** The stages of the pipeline run one after the other, each entered once
    the one before it has been left, up to the stage at which the
    pipeline ends. *)
Lemma ai_pipeline_trace env :
  trace_of (ai_pipeline env None) = awaited GenerateTest \/
  trace_of (ai_pipeline env None) = awaited GenerateTest ++ awaited ExecuteTest \/
  trace_of (ai_pipeline env None) =
    awaited GenerateTest ++ awaited ExecuteTest ++ awaited Interpret.
Proof.
  unfold ai_pipeline, run_stage, bindM, emit, await, ret, trace_of.
  destruct (generateFuzzTest (testgen_reply env)); simpl; [|left; reflexivity].
  destruct (runAIGeneratedFuzzer (write_test env) (ai_run env)) as [fo|]; simpl;
    [|right; left; reflexivity].
  destruct (JsString.eqb (fo_status fo) (lit "failed")); simpl; [|right; left; reflexivity].
  destruct (interpretFuzzFailure (interpret_reply env)); right; right; reflexivity.
Qed.

Lemma report_of_adapter env t :
  get (report_key t) (report_of env) = Some (value_or (task_outcome env t) (sentinel t)).
Proof. destruct t; reflexivity. Qed.

Ltac adapter_field env t :=
  let H := fresh in
  pose proof (report_of_adapter env t) as H;
  cbn [report_key sentinel] in H; rewrite H; clear H.

Lemma report_of_aiFuzzing env :
  get "aiFuzzing" (report_of env) = Some (aiFuzzing_of env).
Proof. reflexivity. Qed.

Lemma pipeline_result_frame env w :
  result_of (ai_pipeline env w) = result_of (ai_pipeline env None).
Proof. rewrite ai_pipeline_frame. reflexivity. Qed.

(** C2: an address request that is answered with a report has the four
    keys [staticAnalysis], [dynamicAnalysis], [genericFuzzing] and
    [aiFuzzing] in it; an adapter whose promise was rejected has exactly
    its sentinel under its key ([null], the honeypot fallback, the generic
    fuzzing fallback), and a pipeline that threw has
    [{status:'incompatible', reason:'AI-driven fuzzing process failed to run.'}].
    The report is composed from the four outcomes by [compose_report],
    which stores the sentinel for any rejected promise. *)
Theorem address_report_is_fully_populated env req w resp :
  is_type "address" (inputType req) = true ->
  result_of (analyze env req w) = Ok resp ->
  status_code resp = 200%Z ->
  (has_key "staticAnalysis" (payload resp) = true /\
   has_key "dynamicAnalysis" (payload resp) = true /\
   has_key "genericFuzzing" (payload resp) = true /\
   has_key "aiFuzzing" (payload resp) = true) /\
  (forall e, task_outcome env Static = Throw e ->
             get "staticAnalysis" (payload resp) = Some JNull) /\
  (forall e, task_outcome env Dynamic = Throw e ->
             get "dynamicAnalysis" (payload resp) =
             Some (obj2 "isHoneypot" (JBool false) "reason" (JStr (lit "Honeypot check failed.")))) /\
  (forall e, task_outcome env Generic = Throw e ->
             get "genericFuzzing" (payload resp) =
             Some (obj2 "status" (JStr (lit "incompatible"))
                        "reason" (JStr (lit "Generic fuzzing failed.")))) /\
  (forall e, result_of (ai_pipeline env w) = Throw e ->
             get "aiFuzzing" (payload resp) =
             Some (obj2 "status" (JStr (lit "incompatible"))
                        "reason" (JStr (lit "AI-driven fuzzing process failed to run.")))) /\
  (exists aiFuzzing,
     payload resp = compose_report (task_outcome env Static) (task_outcome env Dynamic)
                                   (task_outcome env Generic) aiFuzzing) /\
  (forall staticResult dynamicResult genericFuzzResult aiFuzzing e,
     get "staticAnalysis" (compose_report (Throw e) dynamicResult genericFuzzResult aiFuzzing)
       = Some JNull /\
     get "dynamicAnalysis" (compose_report staticResult (Throw e) genericFuzzResult aiFuzzing)
       = Some (obj2 "isHoneypot" (JBool false) "reason" (JStr (lit "Honeypot check failed."))) /\
     get "genericFuzzing" (compose_report staticResult dynamicResult (Throw e) aiFuzzing)
       = Some (obj2 "status" (JStr (lit "incompatible"))
                    "reason" (JStr (lit "Generic fuzzing failed.")))).
Proof.
  intros Hty Hres Hcode.
  destruct (analyze_address_200 env req w resp Hty Hres Hcode) as (_ & _ & _ & ->).
  split; [|split; [|split; [|split; [|split; [|split]]]]].
  - unfold has_key.
    adapter_field env Static. adapter_field env Dynamic. adapter_field env Generic.
    rewrite report_of_aiFuzzing. auto.
  - intros e He. adapter_field env Static. rewrite He. reflexivity.
  - intros e He. adapter_field env Dynamic. rewrite He. reflexivity.
  - intros e He. adapter_field env Generic. rewrite He. reflexivity.
  - intros e He. rewrite report_of_aiFuzzing. unfold aiFuzzing_of.
    rewrite <- (pipeline_result_frame env w), He. reflexivity.
  - exists (aiFuzzing_of env). reflexivity.
  - intros. repeat split.
Qed.

(** C9: two address requests that differ only in how the Static Adapter
    behaves (whether it fails, and when) and that are answered with a
    report have the same [dynamicAnalysis] and the same [genericFuzzing]
    in their reports, and both are present. *)
Theorem static_failure_is_isolated env r delay req w w' resp resp' :
  is_type "address" (inputType req) = true ->
  result_of (analyze env req w) = Ok resp ->
  status_code resp = 200%Z ->
  result_of (analyze (with_static r delay env) req w') = Ok resp' ->
  status_code resp' = 200%Z ->
  get "dynamicAnalysis" (payload resp) = get "dynamicAnalysis" (payload resp') /\
  get "genericFuzzing" (payload resp) = get "genericFuzzing" (payload resp') /\
  get "dynamicAnalysis" (payload resp) <> None /\
  get "genericFuzzing" (payload resp) <> None.
Proof.
  intros Hty Hres Hcode Hres' Hcode'.
  destruct (analyze_address_200 env req w resp Hty Hres Hcode) as (_ & _ & _ & ->).
  destruct (analyze_address_200 _ req w' resp' Hty Hres' Hcode') as (_ & _ & _ & ->).
  adapter_field env Dynamic. adapter_field env Generic.
  adapter_field (with_static r delay env) Dynamic.
  adapter_field (with_static r delay env) Generic.
  repeat split; discriminate.
Qed.

Lemma jsstring_eqb_refl s : JsString.eqb s s = true.
Proof. induction s as [|c s IH]; simpl; [reflexivity|]. rewrite N.eqb_refl. exact IH. Qed.

(** C1, amended: on an address request whose source is there, an ABI
    lookup that reports the ABI as not found (status "0") makes
    [getContractAbi] throw outside the pipeline's [try]: the request is
    answered with status 500 and the generic error, after the failure is
    logged, and no report is returned. When the ABI is there the request
    is answered with a report whatever the later stages do: an error
    thrown by GenerateTest, ExecuteTest or Interpret never leaves the
    pipeline and is surfaced as [aiFuzzing] with status 'incompatible'. *)
Theorem abi_not_found_fails_the_request env req w c s :
  is_type "address" (inputType req) = true ->
  truthy (input req) = true ->
  source_lookup env = Ok (c :: s) ->
  (forall reply, abi_lookup env = Ok reply -> abi_status reply = lit "0" ->
     analyze env req w =
     (Ok (error_response 500 "Failed to complete analysis. Please check your input."), w,
      [FetchedSource; Entered FetchABI; Left FetchABI;
       Logged (lit "Analysis failed: ABI not found for this contract.")])) /\
  (forall abi, getContractAbi (abi_lookup env) = Ok abi ->
     exists report,
       result_of (analyze env req w) = Ok {| status_code := 200; payload := report |} /\
       has_key "aiFuzzing" report = true /\
       forall e, result_of (ai_pipeline env w) = Throw e ->
                 get "aiFuzzing" report =
                 Some (obj2 "status" (JStr (lit "incompatible"))
                            "reason" (JStr (lit "AI-driven fuzzing process failed to run.")))).
Proof.
  intros Hty Hin Hsrc. split.
  - intros reply Hreply Hstatus. rewrite analyze_address by assumption.
    unfold try_catch, bindM at 1, address_case, bindM at 1 2, emit, await.
    rewrite Hsrc. cbn iota beta.
    unfold run_stage, bindM at 1 2 3, emit, await, getContractAbi.
    rewrite Hreply. cbn [bind]. rewrite Hstatus, jsstring_eqb_refl. reflexivity.
  - intros abi Habi. exists (report_of env).
    rewrite (analyze_address_report env req w c s abi Hty Hin Hsrc Habi).
    split; [reflexivity|]. split; [reflexivity|].
    intros e He. rewrite report_of_aiFuzzing. unfold aiFuzzing_of.
    rewrite <- (pipeline_result_frame env w), He. reflexivity.
Qed.

(** C3, amended: in an address request that is answered with a report,
    the ABI fetch is awaited first; then the three adapters are started
    together and settle in some order; the stages of the AI-driven
    pipeline are entered only after all three adapters have settled, and
    they run one after the other: GenerateTest is entered and left, then
    (when the pipeline goes on) ExecuteTest is entered and left, then (when
    it goes on) Interpret is entered and left, and nothing else happens in
    between; the report is composed last, once the adapters and the
    pipeline have settled, and it holds the value of every adapter that
    was fulfilled and of the pipeline when it returned. *)
Theorem adapters_settle_before_the_pipeline_runs env req w resp :
  is_type "address" (inputType req) = true ->
  result_of (analyze env req w) = Ok resp ->
  status_code resp = 200%Z ->
  exists order stages,
    trace_of (analyze env req w) =
      [FetchedSource; Entered FetchABI; Left FetchABI;
       Started Static; Started Dynamic; Started Generic]
      ++ map Settled order
      ++ stages
      ++ [Composed] /\
    Permutation order [Static; Dynamic; Generic] /\
    (stages = [Entered GenerateTest; Left GenerateTest] \/
     stages = [Entered GenerateTest; Left GenerateTest;
               Entered ExecuteTest; Left ExecuteTest] \/
     stages = [Entered GenerateTest; Left GenerateTest;
               Entered ExecuteTest; Left ExecuteTest;
               Entered Interpret; Left Interpret]) /\
    (forall t v, task_outcome env t = Ok v ->
                 get (report_key t) (payload resp) = Some v) /\
    (forall v, result_of (ai_pipeline env w) = Ok v ->
               get "aiFuzzing" (payload resp) = Some v).
Proof.
  intros Hty Hres Hcode.
  destruct (analyze_address_200 env req w resp Hty Hres Hcode) as (_ & _ & -> & ->).
  exists (settle_order (task_latency env) [Static; Dynamic; Generic]),
         (trace_of (ai_pipeline env None)).
  split; [|split; [|split; [|split]]].
  - unfold trace_of at 1, adapters_trace. cbn [snd map app]. reflexivity.
  - apply settle_order_perm.
  - exact (ai_pipeline_trace env).
  - intros t v Hv. rewrite report_of_adapter, Hv. reflexivity.
  - intros v Hv. rewrite report_of_aiFuzzing. unfold aiFuzzing_of.
    rewrite <- (pipeline_result_frame env w), Hv. reflexivity.
Qed.

End AddressCase.

Lemma address_report_is_fully_populated_witness :
  has_key "aiFuzzing" (payload (Sample.report Sample.env_static_down)) = true /\
  get "staticAnalysis" (payload (Sample.report Sample.env_static_down)) = Some JNull.
Proof.
  pose proof (address_report_is_fully_populated Sample.parse Sample.dirname
                Sample.env_static_down Sample.address_request None
                (Sample.report Sample.env_static_down)) as H.
  destruct H as [(_ & _ & _ & Hkey) (Hstatic & _)]; try reflexivity.
  split; [exact Hkey|].
  apply (Hstatic (Error (lit "429 Too Many Requests"))). reflexivity.
Defined.

Lemma static_failure_is_isolated_witness :
  get "dynamicAnalysis" (payload (Sample.report Sample.env))
  = get "dynamicAnalysis" (payload (Sample.report Sample.env_static_down)) /\
  get "genericFuzzing" (payload (Sample.report Sample.env))
  = get "genericFuzzing" (payload (Sample.report Sample.env_static_down)).
Proof.
  pose proof (static_failure_is_isolated Sample.parse Sample.dirname Sample.env
                (Throw (Error (lit "429 Too Many Requests"))) 0
                Sample.address_request None None
                (Sample.report Sample.env) (Sample.report Sample.env_static_down)) as H.
  destruct H as (Hd & Hg & _); try reflexivity.
  split; assumption.
Defined.

(** C1, as stated, fails: with the source there and the ABI reported as not
    found, [getContractAbi] throws and the request is answered with status
    500 and the generic error; there is no report, hence no [aiFuzzing]. *)
Lemma abi_not_found_gives_no_report :
  getContractAbi (abi_lookup Sample.env_no_abi)
    = Throw (Error (lit "ABI not found for this contract.")) /\
  result_of (analyze Sample.parse Sample.dirname Sample.env_no_abi Sample.address_request None)
    = Ok (error_response 500 "Failed to complete analysis. Please check your input.") /\
  get "aiFuzzing"
      (error_response 500 "Failed to complete analysis. Please check your input.").(payload)
    = None.
Proof. repeat split. Qed.

Lemma abi_not_found_fails_the_request_witness :
  result_of (analyze Sample.parse Sample.dirname Sample.env_no_abi Sample.address_request None)
    = Ok (error_response 500 "Failed to complete analysis. Please check your input.") /\
  exists report,
    result_of (analyze Sample.parse Sample.dirname Sample.env_no_test Sample.address_request None)
      = Ok {| status_code := 200; payload := report |} /\
    get "aiFuzzing" report = Some fallback_ai.
Proof.
  split.
  - pose proof (abi_not_found_fails_the_request Sample.parse Sample.dirname
                  Sample.env_no_abi Sample.address_request None
                  99%N (lit "ontract C {}") eq_refl eq_refl eq_refl) as [H _].
    rewrite (H _ eq_refl eq_refl). reflexivity.
  - pose proof (abi_not_found_fails_the_request Sample.parse Sample.dirname
                  Sample.env_no_test Sample.address_request None
                  99%N (lit "ontract C {}") eq_refl eq_refl eq_refl) as [_ H].
    destruct (H (lit "[]") eq_refl) as (report & Hres & _ & Hfallback).
    exists report. split; [exact Hres|].
    eapply Hfallback. reflexivity.
Defined.

(** ** Starting together *)

(** C3, as stated, fails: in this request, which is answered with a report,
    the ABI fetch has settled before the first adapter is started, and the
    three adapters have settled before GenerateTest is entered. Whichever
    stage is taken as the start of the pipeline, the four are not started
    together. *)
Lemma pipeline_is_not_started_with_the_adapters :
  result_of (analyze Sample.parse Sample.dirname Sample.env Sample.address_request None)
    = Ok (Sample.report Sample.env) /\
  trace_of (analyze Sample.parse Sample.dirname Sample.env Sample.address_request None)
    = [FetchedSource; Entered FetchABI; Left FetchABI;
       Started Static; Started Dynamic; Started Generic;
       Settled Dynamic; Settled Generic; Settled Static;
       Entered GenerateTest; Left GenerateTest;
       Entered ExecuteTest; Left ExecuteTest;
       Entered Interpret; Left Interpret;
       Composed] /\
  started_together FetchABI
    (trace_of (analyze Sample.parse Sample.dirname Sample.env Sample.address_request None))
    = false /\
  started_together GenerateTest
    (trace_of (analyze Sample.parse Sample.dirname Sample.env Sample.address_request None))
    = false.
Proof. repeat split. Qed.

Lemma adapters_settle_before_the_pipeline_runs_witness :
  exists order stages,
    trace_of (analyze Sample.parse Sample.dirname Sample.env Sample.address_request None) =
      [FetchedSource; Entered FetchABI; Left FetchABI;
       Started Static; Started Dynamic; Started Generic]
      ++ map Settled order
      ++ stages
      ++ [Composed] /\
    Permutation order [Static; Dynamic; Generic] /\
    (stages = [Entered GenerateTest; Left GenerateTest] \/
     stages = [Entered GenerateTest; Left GenerateTest;
               Entered ExecuteTest; Left ExecuteTest] \/
     stages = [Entered GenerateTest; Left GenerateTest;
               Entered ExecuteTest; Left ExecuteTest;
               Entered Interpret; Left Interpret]).
Proof.
  destruct (adapters_settle_before_the_pipeline_runs Sample.parse Sample.dirname
              Sample.env Sample.address_request None (Sample.report Sample.env)
              eq_refl eq_refl eq_refl) as (order & stages & Htrace & Hperm & Hseq & _).
  exists order, stages. repeat split; assumption.
Defined.

(** ** Extraction of the generated test *)

Section Searching.

Lemma startsWith_app p q s :
  startsWith (p ++ q) s = startsWith p s && startsWith q (skipn (length p) s).
Proof.
  revert s. induction p as [|x p IH]; intros s; simpl.
  - reflexivity.
  - destruct s as [|y s]; simpl; [reflexivity|].
    rewrite IH. apply andb_assoc.
Qed.

Lemma startsWith_firstn n s : startsWith (firstn n s) s = true.
Proof.
  revert s. induction n as [|n IH]; intros [|y s]; simpl; try reflexivity.
  rewrite N.eqb_refl. apply IH.
Qed.

Lemma indexOf_le p s i : indexOf p s = Some i -> i <= length s.
Proof.
  revert i. induction s as [|y s IH]; intros i; simpl.
  - destruct (startsWith p []); intros H; inversion H. lia.
  - destruct (startsWith p (y :: s)).
    + intros H. inversion H. lia.
    + destruct (indexOf p s) as [k|]; simpl; intros H; inversion H.
      specialize (IH k eq_refl). lia.
Qed.

(** A longer pattern that matches where the shorter one is first found is
    first found there too. *)
Lemma indexOf_longer p q s i :
  indexOf p s = Some i ->
  startsWith q (skipn (i + length p) s) = true ->
  indexOf (p ++ q) s = Some i.
Proof.
  revert i. induction s as [|y s IH]; intros i; simpl indexOf.
  - rewrite startsWith_app.
    destruct (startsWith p []) eqn:Hp; intros H; inversion H; subst.
    simpl. intros ->. reflexivity.
  - rewrite startsWith_app.
    destruct (startsWith p (y :: s)) eqn:Hp.
    + intros H; inversion H; subst. simpl Nat.add. intros ->. reflexivity.
    + simpl andb. destruct (indexOf p s) as [k|] eqn:Hk; simpl; intros H; inversion H; subst.
      intros Hq. rewrite (IH k eq_refl Hq). reflexivity.
Qed.

Lemma indexOf_none_longer p q s :
  indexOf p s = None -> indexOf (p ++ q) s = None.
Proof.
  induction s as [|y s IH]; simpl indexOf; rewrite startsWith_app.
  - destruct (startsWith p []); [discriminate | reflexivity].
  - destruct (startsWith p (y :: s)); [discriminate|]. simpl andb.
    destruct (indexOf p s); [discriminate|]. intros _. rewrite IH; reflexivity.
Qed.

(** Searching from a position before the first occurrence. *)
Lemma indexOf_skipn p s j k :
  indexOf p s = Some j -> k <= j -> indexOf p (skipn k s) = Some (j - k).
Proof.
  revert s j. induction k as [|k IH]; intros s j Hj Hk.
  - simpl. rewrite Nat.sub_0_r. exact Hj.
  - destruct s as [|y s]; simpl in Hj.
    + destruct (startsWith p []); inversion Hj. lia.
    + destruct (startsWith p (y :: s)); [inversion Hj; lia|].
      destruct (indexOf p s) as [j'|] eqn:Hj'; simpl in Hj; inversion Hj; subst.
      simpl. apply IH; [exact Hj' | lia].
Qed.

Lemma indexOf_found p s i : indexOf p s = Some i -> startsWith p (skipn i s) = true.
Proof.
  revert i. induction s as [|y s IH]; intros i; simpl indexOf.
  - destruct (startsWith p []) eqn:Hp; intros H; inversion H. exact Hp.
  - destruct (startsWith p (y :: s)) eqn:Hp.
    + intros H; inversion H. exact Hp.
    + destruct (indexOf p s) as [k|]; simpl; intros H; inversion H. apply IH. reflexivity.
Qed.

Lemma indexOf_first p s i k :
  indexOf p s = Some i -> k < i -> startsWith p (skipn k s) = false.
Proof.
  revert i k. induction s as [|y s IH]; intros i k; simpl indexOf.
  - destruct (startsWith p []); intros H; inversion H. lia.
  - destruct (startsWith p (y :: s)) eqn:Hp.
    + intros H; inversion H. lia.
    + destruct (indexOf p s) as [j|] eqn:Hj; simpl; intros H; inversion H; subst.
      intros Hk. destruct k as [|k]; [exact Hp|]. simpl. apply (IH j); [reflexivity | lia].
Qed.

Lemma indexOf_none p s k : indexOf p s = None -> startsWith p (skipn k s) = false.
Proof.
  revert k. induction s as [|y s IH]; intros k; simpl indexOf.
  - destruct (startsWith p []) eqn:Hp; [discriminate|]. intros _.
    destruct k; exact Hp.
  - destruct (startsWith p (y :: s)) eqn:Hp; [discriminate|].
    destruct (indexOf p s); [discriminate|]. intros _.
    destruct k as [|k]; [exact Hp|]. simpl. apply IH. reflexivity.
Qed.

Lemma firstn_add {A} (a b : nat) (l : list A) :
  firstn (a + b) l = firstn a l ++ firstn b (skipn a l).
Proof.
  revert l. induction a as [|a IH]; intros [|x l]; simpl; try reflexivity.
  - destruct b; reflexivity.
  - rewrite IH. reflexivity.
Qed.

Lemma skipn_add {A} (a b : nat) (l : list A) :
  skipn (a + b) l = skipn b (skipn a l).
Proof.
  revert l. induction a as [|a IH]; intros [|x l]; simpl; try reflexivity.
  - destruct b; reflexivity.
  - apply IH.
Qed.

Lemma indexOf_none_skipn p s n : indexOf p s = None -> indexOf p (skipn n s) = None.
Proof.
  intros H. destruct (indexOf p (skipn n s)) as [m|] eqn:Hm; [|reflexivity].
  apply indexOf_found in Hm. rewrite <- skipn_add, (indexOf_none p s (n + m) H) in Hm.
  discriminate.
Qed.

Lemma app_inv_same_length {A} (a c b d : list A) :
  length a = length c -> a ++ b = c ++ d -> a = c /\ b = d.
Proof.
  revert c. induction a as [|x a IH]; intros [|y c]; simpl; try discriminate.
  - auto.
  - intros Hl H. injection Hl as Hl. injection H as -> H.
    destruct (IH c Hl H) as [-> ->]. auto.
Qed.

End Searching.

(** What [match_solidity_block] captures in a response whose first fenced
    block opens with the word [solidity]. *)
Lemma match_solidity_block_first resp inner after :
  first_block resp = Some (lit "solidity" ++ inner, after) ->
  match_solidity_block resp = Some inner.
Proof.
  unfold first_block, match_solidity_block.
  destruct (indexOf fence resp) as [i|] eqn:Hi; [|discriminate].
  cbv zeta.
  destruct (indexOf fence (skipn (i + length fence) resp)) as [j|] eqn:Hj; [|discriminate].
  intros H.
  assert (Hbody : firstn j (skipn (i + length fence) resp) = lit "solidity" ++ inner)
    by (injection H; auto).
  clear H. set (rest := skipn (i + length fence) resp) in *.
  assert (Hlen : j = 8 + length inner).
  { apply (f_equal (@length N)) in Hbody. rewrite length_app in Hbody.
    pose proof (indexOf_le _ _ _ Hj). rewrite length_firstn in Hbody.
    change (length (lit "solidity")) with 8 in Hbody. lia. }
  assert (Hword : startsWith (lit "solidity") rest = true).
  { pose proof (startsWith_firstn j rest) as Hp. rewrite Hbody, startsWith_app in Hp.
    apply andb_prop in Hp. apply Hp. }
  change solidity_opener with (fence ++ lit "solidity").
  rewrite (indexOf_longer fence (lit "solidity") resp i Hi Hword).
  replace (i + length (fence ++ lit "solidity")) with (i + length fence + 8)
    by (rewrite length_app; change (length (lit "solidity")) with 8; lia).
  rewrite skipn_add. fold rest.
  rewrite (indexOf_skipn fence rest j 8 Hj) by lia.
  f_equal. rewrite Hlen, firstn_add in Hbody.
  apply app_inv_same_length in Hbody.
  - rewrite Hlen. replace (8 + length inner - 8) with (length inner) by lia. apply Hbody.
  - rewrite length_firstn. pose proof (indexOf_le _ _ _ Hj).
    change (length (lit "solidity")) with 8. lia.
Qed.

Lemma match_solidity_block_none resp :
  first_block resp = None -> match_solidity_block resp = None.
Proof.
  unfold first_block, match_solidity_block.
  change solidity_opener with (fence ++ lit "solidity").
  destruct (indexOf fence resp) as [i|] eqn:Hi.
  - cbv zeta.
    destruct (indexOf fence (skipn (i + length fence) resp)) as [j|] eqn:Hj; [discriminate|].
    intros _.
    destruct (indexOf (fence ++ lit "solidity") resp) as [k|] eqn:Hk; [|reflexivity].
    assert (Hik : i <= k).
    { destruct (Nat.le_gt_cases i k) as [Hle|Hgt]; [exact Hle|].
      apply indexOf_found in Hk. rewrite startsWith_app in Hk.
      rewrite (indexOf_first fence resp i k Hi Hgt) in Hk. discriminate. }
    replace (k + length (fence ++ lit "solidity"))
      with ((i + length fence) + (k - i + 8))
      by (rewrite length_app; change (length (lit "solidity")) with 8; lia).
    rewrite skipn_add, (indexOf_none_skipn fence _ _ Hj). reflexivity.
  - intros _. rewrite (indexOf_none_longer fence _ resp Hi). reflexivity.
Qed.

(** C4, as stated, fails: the response [plain_fenced_reply] contains
    exactly one fenced block, yet the stage does not extract its inner text
    but throws. *)
Lemma unmarked_block_is_not_extracted :
  sole_block plain_fenced_reply
    = Some (LF ++ lit "contract AIGeneratedFuzzer is Test {}" ++ LF) /\
  generateFuzzTest (Ok plain_fenced_reply)
    = Throw (Error (no_block_message ++ plain_fenced_reply)) /\
  generateFuzzTest (Ok plain_fenced_reply)
    <> Ok (trim (LF ++ lit "contract AIGeneratedFuzzer is Test {}" ++ LF)).
Proof. repeat split. discriminate. Qed.

(** C4, amended: for every model response containing exactly one fenced
    code block whose opening fence is followed at once by the word
    [solidity] and then by at least one more character, the GenerateTest
    stage returns the text between that word and the closing fence, with
    leading and trailing whitespace trimmed and otherwise verbatim; for
    every response containing no fenced code block the stage throws. *)
Theorem solidity_block_is_extracted :
  forall resp c inner,
    (sole_block resp = Some (lit "solidity" ++ c :: inner) ->
     generateFuzzTest (Ok resp) = Ok (trim (c :: inner))) /\
    (first_block resp = None ->
     generateFuzzTest (Ok resp) = Throw (Error (no_block_message ++ resp))).
Proof.
  intros resp c inner. split.
  - unfold sole_block.
    destruct (first_block resp) as [[body after]|] eqn:Hfirst; [|discriminate].
    destruct (first_block after); [discriminate|].
    intros H. injection H as ->.
    unfold generateFuzzTest. cbn [bind].
    rewrite (match_solidity_block_first resp (c :: inner) after Hfirst). reflexivity.
  - intros Hnone. unfold generateFuzzTest. cbn [bind].
    rewrite (match_solidity_block_none resp Hnone). reflexivity.
Qed.

Lemma solidity_block_is_extracted_witness :
  generateFuzzTest (Ok Sample.test_reply) = Ok (lit "contract AIGeneratedFuzzer is Test {}") /\
  generateFuzzTest (Ok (lit "I cannot write a test for this ABI."))
    = Throw (Error (no_block_message ++ lit "I cannot write a test for this ABI.")).
Proof.
  split.
  - apply (proj1 (solidity_block_is_extracted Sample.test_reply 10%N
                    (lit "contract AIGeneratedFuzzer is Test {}" ++ LF))).
    reflexivity.
  - apply (proj2 (solidity_block_is_extracted (lit "I cannot write a test for this ABI.")
                    0%N [])).
    reflexivity.
Defined.

(** ** The repository scanner *)

Section Rhythm.

Lemma batch_sizes_zero : batch_sizes 0 = [].
Proof. reflexivity. Qed.

Lemma batch_sizes_step n :
  0 < n -> batch_sizes n = Nat.min 5 n :: batch_sizes (n - 5).
Proof.
  intros Hn. unfold batch_sizes.
  destruct (Nat.lt_ge_cases n 5) as [Hlt|Hge].
  - rewrite (Nat.div_small n 5 Hlt), (Nat.mod_small n 5 Hlt).
    rewrite Nat.min_r by lia.
    replace (n - 5) with 0 by lia. simpl.
    destruct (n =? 0) eqn:H0; [apply Nat.eqb_eq in H0; lia|].
    reflexivity.
  - rewrite Nat.min_l by lia.
    assert (Hdiv : n / 5 = S ((n - 5) / 5)).
    { replace n with ((n - 5) + 1 * 5) at 1 by lia. rewrite Nat.div_add by lia. lia. }
    assert (Hmod : n mod 5 = (n - 5) mod 5).
    { replace n with ((n - 5) + 1 * 5) at 1 by lia. apply Nat.Div0.mod_add. }
    rewrite Hdiv, Hmod. reflexivity.
Qed.

Lemma batch_sizes_nil n : batch_sizes n = [] -> n = 0.
Proof.
  intros H. destruct n as [|n]; [reflexivity|].
  rewrite batch_sizes_step in H by lia. discriminate.
Qed.

Lemma length_batch_sizes n : length (batch_sizes n) = ceil_div n 5.
Proof.
  unfold batch_sizes, ceil_div. rewrite length_app, repeat_length.
  pose proof (Nat.div_mod_eq n 5) as Hn.
  pose proof (Nat.mod_upper_bound n 5 ltac:(lia)) as Hr.
  set (q := n / 5) in *. set (r := n mod 5) in *.
  replace (n + 5 - 1) with (q * 5 + (r + 4)) by lia.
  rewrite Nat.div_add_l by lia.
  destruct r as [|[|[|[|[|r]]]]]; try reflexivity; lia.
Qed.

Lemma intersperse_cons {A} (sep x : A) l :
  intersperse sep (x :: l) = x :: match l with [] => [] | _ :: _ => sep :: intersperse sep l end.
Proof. destruct l; reflexivity. Qed.

Lemma sizes_of_rhythm trace : sizes_of (rhythm trace) = map (@length _) (batches trace).
Proof.
  induction trace as [|e trace IH]; [reflexivity|].
  unfold rhythm, batches, sizes_of in *. simpl. rewrite flat_map_app, IH.
  destruct e; reflexivity.
Qed.

Lemma pauses_of_rhythm trace : pauses_of (rhythm trace) = pauses trace.
Proof.
  induction trace as [|e trace IH]; [reflexivity|].
  unfold rhythm, pauses, pauses_of in *. simpl. rewrite flat_map_app, IH.
  destruct e; reflexivity.
Qed.

Lemma sizes_of_intersperse ms l : sizes_of (intersperse (Pause ms) (map Batch l)) = l.
Proof.
  induction l as [|x l IH]; [reflexivity|].
  cbn [map]. rewrite intersperse_cons. destruct l as [|y l]; [reflexivity|].
  change (x :: sizes_of (intersperse (Pause ms) (map Batch (y :: l))) = x :: y :: l).
  rewrite IH. reflexivity.
Qed.

Lemma pauses_of_intersperse ms l :
  pauses_of (intersperse (Pause ms) (map Batch l)) = repeat ms (length l - 1).
Proof.
  induction l as [|x l IH]; [reflexivity|].
  cbn [map]. rewrite intersperse_cons. destruct l as [|y l]; [reflexivity|].
  change (ms :: pauses_of (intersperse (Pause ms) (map Batch (y :: l)))
          = repeat ms (length (x :: y :: l) - 1)).
  rewrite IH. simpl. rewrite Nat.sub_0_r. reflexivity.
Qed.

End Rhythm.

Section RepositoryScan.

Variable JSON_parse : jsstring -> result json.
Variable dirname : jsstring.

Local Abbreviation batch_loop := (batch_loop JSON_parse dirname).
Local Abbreviation run_batch := (run_batch JSON_parse dirname).
Local Abbreviation analyze_file := (analyze_file JSON_parse dirname).
Local Abbreviation analyzeGitHubRepo := (analyzeGitHubRepo JSON_parse dirname).
Local Abbreviation tempDir := (tempDir dirname).
Local Abbreviation skipping := (skipping dirname).

Lemma batch_loop_step files i :
  batch_loop files i =
  if i <? length files
  then turn (run_batch (slice i (i + BATCH_SIZE) files))
            (if i + BATCH_SIZE <? length files then [Paused DELAY_MS] else [])
            (batch_loop files (i + BATCH_SIZE))
  else ([], []).
Proof.
  rewrite (batch_loop_equation_1 JSON_parse dirname files i).
  destruct (lt_dec i (length files)) as [H|H]; simpl.
  - apply Nat.ltb_lt in H. rewrite H. reflexivity.
  - apply Nat.ltb_nlt in H. rewrite H. reflexivity.
Qed.

(** Induction along the turns of the loop. *)
Lemma batch_loop_turns files (P : nat -> list json * list event -> Prop) :
  (forall i, length files <= i -> P i ([], [])) ->
  (forall i, i < length files ->
             P (i + BATCH_SIZE) (batch_loop files (i + BATCH_SIZE)) ->
             P i (turn (run_batch (slice i (i + BATCH_SIZE) files))
                       (if i + BATCH_SIZE <? length files then [Paused DELAY_MS] else [])
                       (batch_loop files (i + BATCH_SIZE)))) ->
  forall i, P i (batch_loop files i).
Proof.
  intros Hdone Hturn i.
  remember (length files - i) as n eqn:Hn. revert i Hn.
  induction n as [n IH] using lt_wf_ind. intros i Hn.
  rewrite batch_loop_step. destruct (i <? length files) eqn:Hi.
  - apply Nat.ltb_lt in Hi. apply Hturn; [exact Hi|].
    apply (IH (length files - (i + BATCH_SIZE))); [unfold BATCH_SIZE; lia | reflexivity].
  - apply Nat.ltb_ge in Hi. apply Hdone. exact Hi.
Qed.

Lemma logged_only_rhythm trace : forallb is_logged trace = true -> rhythm trace = [].
Proof.
  induction trace as [|e trace IH]; [reflexivity|]. simpl.
  destruct e; try discriminate. exact IH.
Qed.

Lemma logged_only_batches trace : forallb is_logged trace = true -> batches trace = [].
Proof.
  induction trace as [|e trace IH]; [reflexivity|]. simpl.
  destruct e; try discriminate. exact IH.
Qed.

Lemma analyze_file_log f :
  snd (analyze_file f) = [] \/ snd (analyze_file f) = [Logged (skipping (fst f))].
Proof.
  destruct f as [filePath b]. unfold analyze_file.
  destruct (read b) as [fileContent|]; cbn [bind]; [|right; reflexivity].
  destruct (length (trim fileContent) <? 50); [left; reflexivity|].
  destruct (getStaticAnalysis JSON_parse (reply b)); cbn [bind]; [left|right]; reflexivity.
Qed.

Lemma batch_log_logged_only l :
  forallb is_logged (flat_map (fun f => snd (analyze_file f)) l) = true.
Proof.
  induction l as [|f l IH]; [reflexivity|]. simpl. rewrite forallb_app, IH.
  destruct (analyze_file_log f) as [-> | ->]; reflexivity.
Qed.

Lemma rhythm_app a b : rhythm (a ++ b) = rhythm a ++ rhythm b.
Proof. apply flat_map_app. Qed.

Lemma batches_app a b : batches (a ++ b) = batches a ++ batches b.
Proof. apply flat_map_app. Qed.

Lemma rhythm_batch_started (paths : list jsstring) (trace : list event) :
  rhythm (BatchStarted paths :: trace) = Batch (length paths) :: rhythm trace.
Proof. reflexivity. Qed.

Lemma batches_batch_started (paths : list jsstring) (trace : list event) :
  batches (BatchStarted paths :: trace) = paths :: batches trace.
Proof. reflexivity. Qed.

Lemma rhythm_run_batch batch : rhythm (snd (run_batch batch)) = [Batch (length batch)].
Proof.
  unfold run_batch. cbn [snd].
  rewrite rhythm_batch_started.
  rewrite rhythm_app, (logged_only_rhythm _ (batch_log_logged_only _)), length_map.
  reflexivity.
Qed.

Lemma batches_run_batch batch : batches (snd (run_batch batch)) = [map fst batch].
Proof.
  unfold run_batch. cbn [snd].
  rewrite batches_batch_started.
  rewrite batches_app, (logged_only_batches _ (batch_log_logged_only _)).
  reflexivity.
Qed.

Lemma length_slice (files : list sol_file) i :
  length (slice i (i + BATCH_SIZE) files) = Nat.min 5 (length files - i).
Proof.
  unfold slice, BATCH_SIZE. rewrite length_firstn, length_skipn.
  replace (i + 5 - i) with 5 by lia. reflexivity.
Qed.

(** The loop from index [i] on takes [length files - i] files in batches
    of five, with a pause between two batches. *)
Lemma rhythm_batch_loop files i :
  rhythm (snd (batch_loop files i))
  = intersperse (Pause 2000) (map Batch (batch_sizes (length files - i))).
Proof.
  apply (batch_loop_turns files
           (fun i r => rhythm (snd r)
                       = intersperse (Pause 2000) (map Batch (batch_sizes (length files - i))))).
  - intros j Hj. replace (length files - j) with 0 by lia. reflexivity.
  - intros j Hj IH. unfold turn. cbn [snd].
    rewrite !rhythm_app, rhythm_run_batch, IH, length_slice.
    rewrite (batch_sizes_step (length files - j)) by lia.
    cbn [map]. rewrite intersperse_cons.
    replace (length files - (j + BATCH_SIZE)) with (length files - j - 5)
      by (unfold BATCH_SIZE; lia).
    destruct (j + BATCH_SIZE <? length files) eqn:Hmore.
    + apply Nat.ltb_lt in Hmore. unfold BATCH_SIZE in Hmore.
      destruct (batch_sizes (length files - j - 5)) as [|x l] eqn:Hsizes.
      * apply batch_sizes_nil in Hsizes. lia.
      * reflexivity.
    + apply Nat.ltb_ge in Hmore. unfold BATCH_SIZE in Hmore.
      replace (length files - j - 5) with 0 by lia. reflexivity.
Qed.

(** Every file from index [i] on is handed to exactly one batch, in order. *)
Lemma batches_batch_loop files i :
  concat (batches (snd (batch_loop files i))) = map fst (skipn i files).
Proof.
  apply (batch_loop_turns files
           (fun i r => concat (batches (snd r)) = map fst (skipn i files))).
  - intros j Hj. rewrite skipn_all2 by exact Hj. reflexivity.
  - intros j Hj IH. unfold turn. cbn [snd].
    rewrite !batches_app, batches_run_batch, !concat_app, IH.
    assert (Hpause : batches (if j + BATCH_SIZE <? length files
                              then [Paused DELAY_MS] else []) = [])
      by (destruct (j + BATCH_SIZE <? length files); reflexivity).
    rewrite Hpause. cbn [concat app]. rewrite app_nil_r.
    unfold slice, BATCH_SIZE. replace (j + 5 - j) with 5 by lia.
    rewrite (skipn_add j 5 files), <- map_app, firstn_skipn. reflexivity.
Qed.

(** Induction on a repository tree. *)
Lemma entry_tree_ind (P : entry -> Prop) :
  (forall name b, P (File name b)) ->
  (forall name e, P (Broken name e)) ->
  (forall name e, P (Dir name (Throw e))) ->
  (forall name files, Forall P files -> P (Dir name (Ok files))) ->
  forall file, P file.
Proof.
  intros HFile HBroken HThrow HOk. fix IH 1.
  intros [name b|name [files|e]|name e].
  - apply HFile.
  - apply HOk. induction files as [|f files IHfiles]; constructor; [apply IH | exact IHfiles].
  - apply HThrow.
  - apply HBroken.
Qed.

Lemma for_of_files_logged_only startPath v files :
  Forall (fun f => forallb is_logged (visit_log (v f)) = true) files ->
  forallb is_logged (snd (for_of_files v startPath files)) = true.
Proof.
  induction 1 as [|f files Hf _ IH]; [reflexivity|]. simpl.
  destruct (v f) as [found log|e]; [|reflexivity].
  destruct (for_of_files v startPath files) as [found' log']. simpl in *.
  rewrite forallb_app, Hf, IH. reflexivity.
Qed.

Lemma visit_entry_logged_only file :
  forall startPath, forallb is_logged (visit_log (visit_entry startPath file)) = true.
Proof.
  induction file as [name b|name e|name e|name files IH] using entry_tree_ind;
    intros startPath; cbn [visit_entry entry_name].
  - destruct (endsWith _ _); reflexivity.
  - reflexivity.
  - reflexivity.
  - cbn [find_in]. pose proof (for_of_files_logged_only (path_join startPath name)
                  (visit_entry (path_join startPath name)) files) as H.
    destruct (for_of_files _ _ files) as [found log]. simpl in *. apply H.
    revert IH. apply Forall_impl. intros f Hf. apply Hf.
Qed.

(** The file walk logs and does nothing else. *)
Lemma findSolidityFiles_logged_only startPath dir :
  forallb is_logged (snd (findSolidityFiles startPath dir)) = true.
Proof.
  destruct dir as [files|e]; [|reflexivity].
  apply for_of_files_logged_only, Forall_forall. intros f _. apply visit_entry_logged_only.
Qed.

Lemma for_of_files_as_empty startPath files :
  Forall (fun f => forall p, visit_found (visit_entry p (as_empty_subtree f))
                             = visit_found (visit_entry p f)) files ->
  fst (for_of_files (visit_entry startPath) startPath (map as_empty_subtree files))
  = fst (for_of_files (visit_entry startPath) startPath files).
Proof.
  induction 1 as [|f files Hf _ IH]; [reflexivity|]. simpl.
  specialize (Hf startPath).
  destruct (visit_entry startPath (as_empty_subtree f)) as [found1 log1|e1];
    destruct (visit_entry startPath f) as [found2 log2|e2]; simpl in Hf; try discriminate.
  - injection Hf as ->.
    destruct (for_of_files _ _ (map as_empty_subtree files)) as [fa la].
    destruct (for_of_files _ _ files) as [fb lb]. simpl in *. rewrite IH. reflexivity.
  - reflexivity.
Qed.

Lemma visit_entry_as_empty file :
  forall p, visit_found (visit_entry p (as_empty_subtree file)) = visit_found (visit_entry p file).
Proof.
  induction file as [name b|name e|name e|name files IH] using entry_tree_ind;
    intros p; try reflexivity.
  cbn [as_empty_subtree visit_entry entry_name find_in].
  pose proof (for_of_files_as_empty (path_join p name) files IH) as H.
  destruct (for_of_files _ _ (map as_empty_subtree files)) as [fa la].
  destruct (for_of_files _ _ files) as [fb lb]. simpl in *. rewrite H. reflexivity.
Qed.

(** A directory that cannot be read counts as an empty one. *)
Lemma findSolidityFiles_as_empty startPath dir :
  fst (findSolidityFiles startPath (unreadable_as_empty dir))
  = fst (findSolidityFiles startPath dir).
Proof.
  destruct dir as [files|e]; [|reflexivity].
  apply for_of_files_as_empty, Forall_forall. intros f _. apply visit_entry_as_empty.
Qed.

Local Abbreviation pushed := (fun f => fst (analyze_file f)).

(** The scan, by what the file system and git answer to its four calls on
    the workspace. *)
Lemma scan_outcome repo w :
  analyzeGitHubRepo repo w =
  match stale_removal repo with
  | Throw e => (Throw e, w, [RemovalStarted])
  | Ok _ =>
      match creation repo with
      | Throw e => (Throw e, None, [RemovalStarted; CreationStarted])
      | Ok _ =>
          match clone repo with
          | Throw e =>
              (Throw e, Some (Ok []), [RemovalStarted; CreationStarted; CloneStarted])
          | Ok dir =>
              (match final_removal repo with
               | Ok _ => Ok (fst (batch_loop (fst (findSolidityFiles tempDir dir)) 0))
               | Throw e => Throw e
               end,
               match final_removal repo with
               | Ok _ => None
               | Throw _ => Some dir
               end,
               [RemovalStarted; CreationStarted; CloneStarted]
                 ++ snd (findSolidityFiles tempDir dir)
                 ++ snd (batch_loop (fst (findSolidityFiles tempDir dir)) 0)
                 ++ [RemovalStarted])
          end
      end
  end.
Proof.
  unfold analyzeGitHubRepo, fs_remove, fs_ensureDir, git_clone, readdir_workspace,
    bindM, emit, emit_all, set_workspace, get_workspace, await, ret.
  destruct (stale_removal repo) as [[]|e0]; cbn iota beta; [|reflexivity].
  destruct (creation repo) as [[]|e1]; cbn iota beta; [|reflexivity].
  destruct (clone repo) as [dir|e2]; cbn iota beta; [|reflexivity].
  destruct (findSolidityFiles tempDir dir) as [files walk_log]. cbn [fst snd]. cbn iota beta.
  destruct (batch_loop files 0) as [findings scan_log]. cbn [fst snd app].
  destruct (final_removal repo) as [[]|e3]; cbn iota beta;
    rewrite ?app_nil_r; reflexivity.
Qed.

(** A scan that gets as far as the file walk. *)
Lemma scan_after_clone repo dir w :
  prepared repo dir ->
  analyzeGitHubRepo repo w =
  (match final_removal repo with
   | Ok _ => Ok (fst (batch_loop (fst (findSolidityFiles tempDir dir)) 0))
   | Throw e => Throw e
   end,
   match final_removal repo with
   | Ok _ => None
   | Throw _ => Some dir
   end,
   [RemovalStarted; CreationStarted; CloneStarted]
     ++ snd (findSolidityFiles tempDir dir)
     ++ snd (batch_loop (fst (findSolidityFiles tempDir dir)) 0)
     ++ [RemovalStarted]).
Proof.
  intros (Hstale & Hcreation & Hclone). rewrite scan_outcome, Hclone.
  destruct (stale_removal repo); [|discriminate Hstale].
  destruct (creation repo); [|discriminate Hcreation].
  reflexivity.
Qed.

(** What a scan that gets as far as the file walk leaves in the trace. *)
Lemma trace_after_clone repo dir w :
  prepared repo dir ->
  trace_of (analyzeGitHubRepo repo w) =
  [RemovalStarted; CreationStarted; CloneStarted]
    ++ snd (findSolidityFiles tempDir dir)
    ++ snd (batch_loop (fst (findSolidityFiles tempDir dir)) 0)
    ++ [RemovalStarted].
Proof. intros H. rewrite (scan_after_clone repo dir w H). reflexivity. Qed.

Lemma pushed_batch_loop files i :
  Permutation (fst (batch_loop files i)) (flat_map pushed (skipn i files)).
Proof.
  apply (batch_loop_turns files
           (fun i r => Permutation (fst r) (flat_map pushed (skipn i files)))).
  - intros j Hj. rewrite skipn_all2 by exact Hj. reflexivity.
  - intros j Hj IH. unfold turn, run_batch. cbn [fst].
    rewrite <- (firstn_skipn 5 (skipn j files)), flat_map_app.
    apply Permutation_app.
    + unfold slice, BATCH_SIZE. replace (j + 5 - j) with 5 by lia.
      apply Permutation_flat_map, settle_order_perm.
    + rewrite <- skipn_add. exact IH.
Qed.

Lemma failure_is_logged f :
  file_fails JSON_parse f = true ->
  pushed f = [] /\ snd (analyze_file f) = [Logged (skipping (fst f))].
Proof.
  destruct f as [filePath b]. unfold file_fails, analyze_file. cbn [fst snd].
  destruct (read b) as [fileContent|]; cbn [bind]; [|split; reflexivity].
  destruct (length (trim fileContent) <? 50); [discriminate|].
  destruct (getStaticAnalysis JSON_parse (reply b)); [discriminate|]. split; reflexivity.
Qed.

Lemma failures_batch_loop files i f :
  In f (skipn i files) -> file_fails JSON_parse f = true ->
  In (Logged (skipping (fst f))) (snd (batch_loop files i)).
Proof.
  intros Hin Hfails. revert Hin.
  apply (batch_loop_turns files
           (fun i r => In f (skipn i files) -> In (Logged (skipping (fst f))) (snd r))).
  - intros j Hj. rewrite skipn_all2 by exact Hj. intros [].
  - intros j Hj IH Hin. unfold turn. cbn [snd].
    rewrite <- (firstn_skipn 5 (skipn j files)) in Hin.
    apply in_app_or in Hin. destruct Hin as [Hin|Hin].
    + apply in_or_app. left. unfold run_batch. cbn [snd]. right.
      apply in_or_app. left. apply in_flat_map. exists f. split.
      * apply (Permutation_in f (Permutation_sym (settle_order_perm _ _))).
        unfold slice, BATCH_SIZE. replace (j + 5 - j) with 5 by lia. exact Hin.
      * rewrite (proj2 (failure_is_logged f Hfails)). left. reflexivity.
    + apply in_or_app. right. apply in_or_app. right. apply IH.
      unfold BATCH_SIZE. rewrite skipn_add. exact Hin.
Qed.

Lemma logged_only_timeline trace : forallb is_logged trace = true -> timeline trace = [].
Proof.
  induction trace as [|e trace IH]; [reflexivity|]. simpl.
  destruct e; try discriminate. exact IH.
Qed.

Lemma timeline_app a b : timeline (a ++ b) = timeline a ++ timeline b.
Proof. apply flat_map_app. Qed.

Lemma timeline_run_batch batch :
  timeline (snd (run_batch batch)) = [Opens (length batch); Closes].
Proof.
  unfold run_batch. cbn [snd].
  change (timeline (BatchStarted ?p :: ?t)) with (Opens (length p) :: timeline t).
  rewrite timeline_app, (logged_only_timeline _ (batch_log_logged_only _)), length_map.
  reflexivity.
Qed.

(** The loop from index [i] on runs its batches one after the other: a
    batch has settled before the loop pauses or starts the next one. *)
Lemma timeline_batch_loop files i :
  timeline (snd (batch_loop files i))
  = one_after_the_other 2000 (batch_sizes (length files - i)).
Proof.
  apply (batch_loop_turns files
           (fun i r => timeline (snd r)
                       = one_after_the_other 2000 (batch_sizes (length files - i)))).
  - intros j Hj. replace (length files - j) with 0 by lia. reflexivity.
  - intros j Hj IH. unfold turn. cbn [snd].
    rewrite !timeline_app, timeline_run_batch, IH, length_slice.
    rewrite (batch_sizes_step (length files - j)) by lia.
    cbn [one_after_the_other].
    replace (length files - (j + BATCH_SIZE)) with (length files - j - 5)
      by (unfold BATCH_SIZE; lia).
    destruct (j + BATCH_SIZE <? length files) eqn:Hmore.
    + apply Nat.ltb_lt in Hmore. unfold BATCH_SIZE in Hmore.
      destruct (batch_sizes (length files - j - 5)) as [|x l] eqn:Hsizes.
      * apply batch_sizes_nil in Hsizes. lia.
      * reflexivity.
    + apply Nat.ltb_ge in Hmore. unfold BATCH_SIZE in Hmore.
      replace (length files - j - 5) with 0 by lia. reflexivity.
Qed.


(** C7: a repository scan that gets as far as the file walk (its
    initial cleanup, directory creation and clone succeed) and finds [N]
    qualifying files runs ceil(N/5) batches, of sizes 5, 5, ..., N mod 5, which take the files
    in order; it pauses ceil(N/5) - 1 times (not at all when there is no
    file), each time for 2000 ms, and each pause stands between two
    batches: there is none before the first batch or after the last. The
    batches are sequential: every batch has settled before the pause
    that follows it and before the next batch is started. *)
Theorem scan_runs_in_batches_of_five repo dir w :
  prepared repo dir ->
  let files := fst (findSolidityFiles tempDir dir) in
  let N := length files in
  let trace := trace_of (analyzeGitHubRepo repo w) in
  length (batches trace) = ceil_div N 5 /\
  map (@length _) (batches trace) = batch_sizes N /\
  concat (batches trace) = map fst files /\
  pauses trace = repeat 2000%Z (ceil_div N 5 - 1) /\
  rhythm trace = intersperse (Pause 2000) (map Batch (batch_sizes N)) /\
  timeline trace = one_after_the_other 2000 (batch_sizes N).
Proof.
  intros Hprepared files N trace.
  assert (Htrace : trace = [RemovalStarted; CreationStarted; CloneStarted]
                             ++ snd (findSolidityFiles tempDir dir)
                             ++ snd (batch_loop files 0) ++ [RemovalStarted])
    by apply (trace_after_clone repo dir w Hprepared).
  assert (Hrhythm : rhythm trace = intersperse (Pause 2000) (map Batch (batch_sizes N))).
  { rewrite Htrace.
    change (rhythm ([RemovalStarted; CreationStarted; CloneStarted] ++ ?t)) with (rhythm t).
    rewrite !rhythm_app, (logged_only_rhythm _ (findSolidityFiles_logged_only _ _)).
    rewrite rhythm_batch_loop, Nat.sub_0_r, app_nil_r. reflexivity. }
  assert (Hbatches : concat (batches trace) = map fst files).
  { rewrite Htrace.
    change (batches ([RemovalStarted; CreationStarted; CloneStarted] ++ ?t)) with (batches t).
    rewrite !batches_app, (logged_only_batches _ (findSolidityFiles_logged_only _ _)).
    cbn [app]. rewrite app_nil_r, batches_batch_loop. reflexivity. }
  assert (Hsizes : map (@length _) (batches trace) = batch_sizes N).
  { rewrite <- sizes_of_rhythm, Hrhythm. apply sizes_of_intersperse. }
  repeat split.
  - rewrite <- (length_map (@length _)), Hsizes. apply length_batch_sizes.
  - exact Hsizes.
  - exact Hbatches.
  - rewrite <- pauses_of_rhythm, Hrhythm, pauses_of_intersperse, length_batch_sizes.
    reflexivity.
  - exact Hrhythm.
  - rewrite Htrace.
    change (timeline ([RemovalStarted; CreationStarted; CloneStarted] ++ ?t)) with (timeline t).
    rewrite !timeline_app, (logged_only_timeline _ (findSolidityFiles_logged_only _ _)).
    rewrite timeline_batch_loop, Nat.sub_0_r, app_nil_r. reflexivity.
Qed.

(** C8, amended: in a repository scan that gets as far as the file walk,
    neither a failing file nor a directory that cannot be read makes the
    walk or a batch throw: the scan always goes on to the final removal of
    the workspace, returns its findings when that removal succeeds, and
    throws only when that removal fails, with the removal's error. A file
    that cannot be read or whose analysis fails pushes no entry and is
    logged; every file found is still handed to a batch, and the findings
    are, up to the order of completion, the entries of the files that went
    through. A directory that cannot be read counts as an empty one for
    the walk: the scan finds the same files as on the tree in which it is
    empty, and ends the same way when the final removal does. *)
Theorem scan_survives_file_and_directory_failures repo dir w :
  prepared repo dir ->
  let files := fst (findSolidityFiles tempDir dir) in
  let outcome := analyzeGitHubRepo repo w in
  (exists walk, trace_of outcome =
                [RemovalStarted; CreationStarted; CloneStarted] ++ walk ++ [RemovalStarted]) /\
  (is_ok (final_removal repo) = true ->
     exists findings,
       result_of outcome = Ok findings /\
       Permutation findings (flat_map (fun f => fst (analyze_file f)) files)) /\
  (forall e, result_of outcome = Throw e <-> final_removal repo = Throw e) /\
  concat (batches (trace_of outcome)) = map fst files /\
  (forall f, In f files -> file_fails JSON_parse f = true ->
     fst (analyze_file f) = [] /\
     In (Logged (skipping (fst f))) (trace_of outcome)) /\
  fst (findSolidityFiles tempDir (unreadable_as_empty dir)) = files /\
  (forall repo', prepared repo' (unreadable_as_empty dir) ->
     final_removal repo' = final_removal repo ->
     result_of (analyzeGitHubRepo repo' w) = result_of outcome).
Proof.
  intros Hprepared files outcome. unfold outcome.
  rewrite (scan_after_clone repo dir w Hprepared).
  unfold result_of, trace_of. cbn [fst snd]. fold files.
  split; [|split; [|split; [|split; [|split; [|split]]]]].
  - exists (snd (findSolidityFiles tempDir dir) ++ snd (batch_loop files 0)).
    rewrite <- app_assoc. reflexivity.
  - intros Hok. destruct (final_removal repo); [|discriminate Hok].
    eexists. split; [reflexivity|]. apply (pushed_batch_loop files 0).
  - intros e. destruct (final_removal repo) as [u|e']; split; intros H;
      try discriminate H; injection H as <-; reflexivity.
  - change (batches ([RemovalStarted; CreationStarted; CloneStarted] ++ ?t)) with (batches t).
    rewrite !batches_app, (logged_only_batches _ (findSolidityFiles_logged_only _ _)).
    cbn [app]. rewrite app_nil_r. apply batches_batch_loop.
  - intros f Hin Hfails. split; [apply (failure_is_logged f Hfails)|].
    apply in_or_app. right. apply in_or_app. right. apply in_or_app. left.
    apply failures_batch_loop; assumption.
  - apply findSolidityFiles_as_empty.
  - intros repo' Hprepared' Hsame.
    rewrite (scan_after_clone repo' _ w Hprepared'). cbn [fst].
    rewrite findSolidityFiles_as_empty, Hsame. reflexivity.
Qed.

End RepositoryScan.



(** Scenario 3 of the design document: twelve qualifying files are scanned
    in three batches of sizes 5, 5 and 2 with two pauses. *)
Example twelve_files_three_batches :
  length (fst (findSolidityFiles (tempDir Sample.dirname) SampleRepo.tree)) = 12 /\
  rhythm (trace_of (analyzeGitHubRepo Sample.parse Sample.dirname SampleRepo.checked_out None))
  = [Batch 5; Pause 2000; Batch 5; Pause 2000; Batch 2].
Proof. split; vm_compute; reflexivity. Qed.

Lemma scan_runs_in_batches_of_five_witness :
  timeline (trace_of (analyzeGitHubRepo Sample.parse Sample.dirname SampleRepo.checked_out None))
  = [Opens 5; Closes; Rests 2000; Opens 5; Closes; Rests 2000; Opens 2; Closes].
Proof.
  apply (scan_runs_in_batches_of_five Sample.parse Sample.dirname
           SampleRepo.checked_out SampleRepo.tree None).
  repeat split.
Defined.

(** C8, as stated, fails: the tree holds a directory that cannot be read;
    the walk passes over it and finds the twelve files, the batches run,
    and then the final removal of the workspace fails on that directory,
    so the scan throws and the request is answered with the generic
    error. *)
Lemma unreadable_directory_makes_the_scan_throw :
  (exists files,
     SampleRepo.tree = Ok files /\
     In (Dir (lit "node_modules") (Throw (Error (lit "EACCES: permission denied")))) files) /\
  length (fst (findSolidityFiles (tempDir Sample.dirname) SampleRepo.tree)) = 12 /\
  prepared SampleRepo.locked SampleRepo.tree /\
  result_of (analyzeGitHubRepo Sample.parse Sample.dirname SampleRepo.locked None)
    = Throw (Error (lit "EACCES: permission denied, scandir '/srv/server/temp_repo/node_modules'")) /\
  is_ok (result_of (analyzeGitHubRepo Sample.parse Sample.dirname SampleRepo.locked None))
    = false.
Proof.
  split; [|split; [|split; [|split]]].
  - eexists. split; [reflexivity|]. simpl. tauto.
  - vm_compute. reflexivity.
  - repeat split.
  - vm_compute. reflexivity.
  - vm_compute. reflexivity.
Qed.

Lemma scan_survives_file_and_directory_failures_witness :
  fst (analyze_file Sample.parse Sample.dirname SampleRepo.vault) = [] /\
  In (Logged (lit "Skipping analysis for contracts/Vault.sol."))
     (trace_of (analyzeGitHubRepo Sample.parse Sample.dirname SampleRepo.locked None)).
Proof.
  apply (proj1 (proj2 (proj2 (proj2 (proj2
           (scan_survives_file_and_directory_failures Sample.parse Sample.dirname
              SampleRepo.locked SampleRepo.tree None ltac:(repeat split))))))).
  - vm_compute. tauto.
  - reflexivity.
Defined.

(** ** Scenarios of the design document *)

(** Scenario 1: pasted code, with a model that answers valid JSON. *)
Example scenario_pasted_code :
  result_of (analyze Sample.parse Sample.dirname Sample.env
                     {| inputType := Some (JStr (lit "text"));
                        input := Some (JStr (lit "contract C {}")) |} None)
  = Ok {| status_code := 200;
          payload := obj2 "reportType" (JStr (lit "text"))
                          "files" (JArr [obj2 "file" (JStr (lit "PastedCode.sol"))
                                              "analysis" (JObj [])]) |}.
Proof. reflexivity. Qed.

(** Scenario 2: the explorer returns an empty source field. *)
Example scenario_empty_source :
  result_of (analyze Sample.parse Sample.dirname
                     (with_static (Ok (lit "{}")) 0
                        {| source_lookup := Ok [];
                           abi_lookup := abi_lookup Sample.env;
                           static_reply := static_reply Sample.env;
                           static_latency := 0;
                           honeypot_run := Ran Sample.passing;
                           dynamic_latency := 0;
                           generic_run := Ran Sample.passing;
                           generic_latency := 0;
                           testgen_reply := testgen_reply Sample.env;
                           write_test := Ok tt;
                           ai_run := Ran Sample.passing;
                           interpret_reply := Ok [];
                           repository := repository Sample.env |})
                     Sample.address_request None)
  = Ok (error_response 500 "Failed to complete analysis. Please check your input.").
Proof. reflexivity. Qed.

(** Scenario 5: the generated test fails with a non-compiler error, and
    the interpretation becomes the reason. *)
Example scenario_interpreted_failure :
  get "aiFuzzing" (payload (Sample.report Sample.env))
  = Some (obj2 "status" (JStr (lit "failed"))
               "reason" (JStr (lit "transfer() lets the balance underflow."))).
Proof. reflexivity. Qed.

(** * Further properties of the endpoint *)

Section Endpoint.

Variable JSON_parse : jsstring -> result json.
Variable dirname : jsstring.

Local Abbreviation analyze := (analyze JSON_parse dirname).
Local Abbreviation analyze_body := (analyze_body JSON_parse dirname).
Local Abbreviation caught := (caught JSON_parse).
Local Abbreviation report_of := (report_of JSON_parse).
Local Abbreviation analyzeGitHubRepo := (analyzeGitHubRepo JSON_parse dirname).
Local Abbreviation getStaticAnalysis := (getStaticAnalysis JSON_parse).
Local Abbreviation batch_loop := (batch_loop JSON_parse dirname).
Local Abbreviation tempDir := (tempDir dirname).

Lemma jsstring_eqb_eq a b : JsString.eqb a b = true -> a = b.
Proof.
  revert b. induction a as [|x a IH]; intros [|y b]; simpl; try discriminate.
  - reflexivity.
  - intros H. apply andb_prop in H. destruct H as [Hx Hab].
    apply N.eqb_eq in Hx. rewrite Hx, (IH b Hab). reflexivity.
Qed.

Lemma is_type_distinct n m v :
  n <> m -> is_type n v = true -> is_type m v = false.
Proof.
  intros Hnm. destruct v as [[| | |s| |]|]; simpl; try discriminate.
  intros Hn. apply jsstring_eqb_eq in Hn. subst s.
  destruct (JsString.eqb (lit n) (lit m)) eqn:H; [|reflexivity].
  apply jsstring_eqb_eq in H. exfalso. apply Hnm.
  unfold lit in H.
  assert (Hinj : forall a b : list ascii, map N_of_ascii a = map N_of_ascii b -> a = b).
  { induction a as [|x a IH]; intros [|y b]; simpl; try discriminate; [reflexivity|].
    intros E. injection E as Exy Eab.
    rewrite <- (ascii_N_embedding x), <- (ascii_N_embedding y), Exy, (IH b Eab).
    reflexivity. }
  apply Hinj in H.
  rewrite <- (string_of_list_ascii_of_string n), <- (string_of_list_ascii_of_string m), H.
  reflexivity.
Qed.

(** Line 206: a type the [switch] does not know. *)
Lemma analyze_unknown_type env req w :
  truthy (inputType req) = true -> truthy (input req) = true ->
  known_type (inputType req) = false ->
  analyze env req w = (Ok invalid_type, w, []).
Proof.
  unfold known_type. intros Hty Hin Hknown.
  apply orb_false_elim in Hknown. destruct Hknown as [Hknown Htext].
  apply orb_false_elim in Hknown. destruct Hknown as [Haddr Hgit].
  unfold analyze, analyze_body, try_catch. rewrite Hty, Hin, Haddr, Hgit, Htext. reflexivity.
Qed.

(** Lines 198 to 201: the github case. *)
Lemma analyze_github env req w :
  is_type "github" (inputType req) = true -> truthy (input req) = true ->
  analyze env req w =
  match result_of (analyzeGitHubRepo (repository env) w) with
  | Ok repoResults =>
      (Ok {| status_code := 200;
             payload := obj2 "reportType" (JStr (lit "repo")) "files" (JArr repoResults) |},
       workspace_of (analyzeGitHubRepo (repository env) w),
       trace_of (analyzeGitHubRepo (repository env) w))
  | Throw e =>
      (Ok internal_error,
       workspace_of (analyzeGitHubRepo (repository env) w),
       trace_of (analyzeGitHubRepo (repository env) w)
         ++ [Logged (lit "Analysis failed: " ++ message_of e)])
  end.
Proof.
  intros Hty Hin. unfold analyze, analyze_body, try_catch.
  rewrite (is_type_truthy _ _ Hty) by discriminate. rewrite Hin.
  rewrite (is_type_distinct "github" "address" _ ltac:(discriminate) Hty), Hty.
  cbn [negb orb]. unfold bindM at 1.
  destruct (analyzeGitHubRepo (repository env) w) as [[[repoResults|e] w1] t1];
    unfold result_of, workspace_of, trace_of; cbn [fst snd].
  - unfold ret. rewrite app_nil_r. reflexivity.
  - reflexivity.
Qed.

(** A scan throws the error of the first of its four calls on the
    workspace that fails... *)
Lemma scan_throws repo w e :
  scan_failure repo = Some e -> result_of (analyzeGitHubRepo repo w) = Throw e.
Proof.
  rewrite scan_outcome. unfold scan_failure.
  destruct (stale_removal repo); [|intros [= <-]; reflexivity].
  destruct (creation repo); [|intros [= <-]; reflexivity].
  destruct (clone repo); [|intros [= <-]; reflexivity].
  destruct (final_removal repo); [discriminate|intros [= <-]; reflexivity].
Qed.

(** ... and returns its findings when none of them does. *)
Lemma scan_returns repo w :
  scan_failure repo = None ->
  exists dir,
    prepared repo dir /\
    is_ok (final_removal repo) = true /\
    analyzeGitHubRepo repo w =
    (Ok (fst (batch_loop (fst (findSolidityFiles tempDir dir)) 0)), None,
     [RemovalStarted; CreationStarted; CloneStarted]
       ++ snd (findSolidityFiles tempDir dir)
       ++ snd (batch_loop (fst (findSolidityFiles tempDir dir)) 0)
       ++ [RemovalStarted]).
Proof.
  rewrite scan_outcome. unfold scan_failure, prepared.
  destruct (stale_removal repo); [|discriminate].
  destruct (creation repo); [|discriminate].
  destruct (clone repo) as [dir|]; [|discriminate].
  destruct (final_removal repo); [|discriminate].
  intros _. exists dir. repeat split.
Qed.

(** Lines 202 to 205: the text case. *)
Lemma analyze_text env req w :
  is_type "text" (inputType req) = true -> truthy (input req) = true ->
  analyze env req w =
  match getStaticAnalysis (static_reply env) with
  | Ok textResult =>
      (Ok {| status_code := 200;
             payload := obj2 "reportType" (JStr (lit "text"))
                             "files" (JArr [obj2 "file" (JStr (lit "PastedCode.sol"))
                                                 "analysis" textResult]) |},
       w, [Started Static; Settled Static])
  | Throw e =>
      (Ok internal_error, w,
       [Started Static; Settled Static; Logged (lit "Analysis failed: " ++ message_of e)])
  end.
Proof.
  intros Hty Hin. unfold analyze, analyze_body, try_catch.
  rewrite (is_type_truthy _ _ Hty) by discriminate. rewrite Hin.
  rewrite (is_type_distinct "text" "address" _ ltac:(discriminate) Hty),
    (is_type_distinct "text" "github" _ ltac:(discriminate) Hty), Hty.
  cbn [negb orb]. unfold bindM, emit, await, ret.
  destruct (getStaticAnalysis (static_reply env)); reflexivity.
Qed.

Lemma analyze_address_failure env req w :
  is_type "address" (inputType req) = true -> truthy (input req) = true ->
  (forall c s, source_lookup env <> Ok (c :: s)) \/
  (exists e, getContractAbi (abi_lookup env) = Throw e) ->
  exists e t,
    analyze env req w =
    (Ok internal_error, w, t ++ [Logged (lit "Analysis failed: " ++ message_of e)]).
Proof.
  intros Hty Hin H. rewrite analyze_address by assumption.
  destruct (address_case_throws JSON_parse env w H) as (e & t & He).
  exists e, t. unfold try_catch, bindM. rewrite He. reflexivity.
Qed.

Lemma getContractAbi_ok response :
  (exists abi, getContractAbi response = Ok abi) <->
  (exists data, response = Ok data /\ abi_status data <> lit "0").
Proof.
  unfold getContractAbi. destruct response as [data|e]; cbn [bind].
  - destruct (JsString.eqb (abi_status data) (lit "0")) eqn:Hs.
    + apply jsstring_eqb_eq in Hs. split.
      * intros [abi H]. discriminate.
      * intros (data' & H & Hne). injection H as <-. contradiction.
    + split.
      * intros _. exists data. split; [reflexivity|].
        intros Heq. rewrite Heq, jsstring_eqb_refl in Hs. discriminate.
      * intros _. eexists. reflexivity.
  - split.
    + intros [abi H]. discriminate.
    + intros (data & H & _). discriminate.
Qed.

(** A request with both fields and a known type is answered with a
    report or with the generic server error, which is logged. *)
Lemma analyze_known_type env req w :
  truthy (inputType req) = true -> truthy (input req) = true ->
  known_type (inputType req) = true ->
  exists resp,
    result_of (analyze env req w) = Ok resp /\
    (status_code resp = 200%Z \/
     (resp = internal_error /\
      exists t e, trace_of (analyze env req w)
                  = t ++ [Logged (lit "Analysis failed: " ++ message_of e)])).
Proof.
  intros Hty Hin Hknown.
  unfold known_type in Hknown. apply orb_prop in Hknown. destruct Hknown as [Hknown|Htext].
  1: apply orb_prop in Hknown; destruct Hknown as [Haddr|Hgit].
  - destruct (source_lookup env) as [[|c s]|e0] eqn:Hsrc.
    1,3: destruct (analyze_address_failure env req w Haddr Hin) as (e & t & ->);
         [left; intros c' s'; rewrite Hsrc; discriminate|];
         eexists; split; [reflexivity|]; right; split; [reflexivity|];
         exists t, e; reflexivity.
    destruct (getContractAbi (abi_lookup env)) as [abi|e0] eqn:Habi.
    + rewrite (analyze_address_report JSON_parse dirname env req w c s abi Haddr Hin Hsrc Habi).
      eexists. split; [reflexivity|]. left. reflexivity.
    + destruct (analyze_address_failure env req w Haddr Hin) as (e & t & ->);
        [right; exists e0; exact Habi|].
      eexists; split; [reflexivity|]; right; split; [reflexivity|].
      exists t, e; reflexivity.
  - rewrite (analyze_github env req w Hgit Hin).
    destruct (result_of (analyzeGitHubRepo (repository env) w)) as [repoResults|e].
    + eexists. split; [reflexivity|]. left. reflexivity.
    + eexists. split; [reflexivity|]. right. split; [reflexivity|].
      exists (trace_of (analyzeGitHubRepo (repository env) w)), e. reflexivity.
  - rewrite (analyze_text env req w Htext Hin).
    destruct (getStaticAnalysis (static_reply env)) as [v|e].
    + eexists. split; [reflexivity|]. left. reflexivity.
    + eexists. split; [reflexivity|]. right. split; [reflexivity|].
      exists [Started Static; Settled Static], e. reflexivity.
Qed.

(** The [catch] of lines 210 to 213 around the body of the handler. *)
Lemma analyze_catches env req w :
  analyze env req w =
  match result_of (analyze_body env req w) with
  | Ok resp => analyze_body env req w
  | Throw e =>
      (Ok internal_error, workspace_of (analyze_body env req w),
       trace_of (analyze_body env req w) ++ [Logged (lit "Analysis failed: " ++ message_of e)])
  end.
Proof.
  unfold analyze, try_catch.
  destruct (analyze_body env req w) as [[[resp|e] w1] t1]; reflexivity.
Qed.

(** The result of the address case, by the error that ends it. *)
Lemma address_case_result env w :
  result_of (address_case JSON_parse env w) =
  match address_failure env with
  | Some e => Throw e
  | None => Ok (report_of env)
  end.
Proof.
  unfold address_failure.
  destruct (source_lookup env) as [[|c s]|e0] eqn:Hsrc.
  1,3: unfold address_case, bindM at 1 2, emit, await; rewrite Hsrc; reflexivity.
  destruct (getContractAbi (abi_lookup env)) as [abi|e0] eqn:Habi.
  - rewrite (address_case_report JSON_parse env w c s abi Hsrc Habi). reflexivity.
  - unfold address_case, bindM at 1 2, emit, await. rewrite Hsrc. cbn iota beta.
    unfold run_stage, bindM at 1 2 3, emit, await. rewrite Habi. reflexivity.
Qed.

(** What the body of the handler returns, and what it throws. *)
Lemma analyze_body_result env req w :
  match result_of (analyze_body env req w) with
  | Ok resp =>
      caught env req = None /\
      (status_code resp = 200%Z \/ resp = missing_field \/ resp = invalid_type)
  | Throw e => caught env req = Some e
  end.
Proof.
  unfold analyze_body, caught.
  destruct (negb (truthy (inputType req)) || negb (truthy (input req))).
  { cbn. auto. }
  destruct (is_type "address" (inputType req)).
  { unfold bindM.
    pose proof (address_case_result env w) as H. unfold result_of in H.
    destruct (address_case JSON_parse env w) as [[[report|e] w1] t1]; cbn [fst] in H;
      destruct (address_failure env); try discriminate H.
    - cbn. auto.
    - injection H as <-. reflexivity. }
  destruct (is_type "github" (inputType req)).
  { unfold bindM. destruct (scan_failure (repository env)) as [e|] eqn:Hscan.
    - pose proof (scan_throws (repository env) w e Hscan) as H. unfold result_of in H.
      destruct (analyzeGitHubRepo (repository env) w) as [[[repoResults|e'] w1] t1];
        cbn [fst] in H; [discriminate H|].
      injection H as <-. reflexivity.
    - destruct (scan_returns (repository env) w Hscan) as (dir & _ & _ & ->).
      cbn. auto. }
  destruct (is_type "text" (inputType req)).
  { unfold bindM, emit, await, ret.
    destruct (getStaticAnalysis (static_reply env)); cbn; auto. }
  cbn. auto.
Qed.

(** X1: the handler never throws. Its answer has status 200, or is one of
    the two client errors, or is the generic server error. The generic
    server error is given exactly when the body of the handler throws;
    the error it throws is then the one of [caught] (for an address, the
    error of the source lookup, 'Source code not found.' or the error of
    the ABI fetch; for a repository, the first failure among the initial
    cleanup, the directory creation, the clone and the final removal; for
    pasted code, the error of the static analysis), and everything the
    body did is followed in the log by one more line, 'Analysis failed: '
    and the message of that error, which is not part of the answer. *)
Theorem analyze_answers env req w :
  exists resp,
    result_of (analyze env req w) = Ok resp /\
    match caught env req with
    | None =>
        (status_code resp = 200%Z \/ resp = missing_field \/ resp = invalid_type) /\
        analyze env req w = analyze_body env req w
    | Some e =>
        resp = internal_error /\
        result_of (analyze_body env req w) = Throw e /\
        workspace_of (analyze env req w) = workspace_of (analyze_body env req w) /\
        trace_of (analyze env req w)
        = trace_of (analyze_body env req w)
            ++ [Logged (lit "Analysis failed: " ++ message_of e)]
    end.
Proof.
  rewrite analyze_catches.
  pose proof (analyze_body_result env req w) as H.
  destruct (result_of (analyze_body env req w)) as [resp|e] eqn:Hbody.
  - destruct H as [-> Hshape]. exists resp. rewrite Hbody. auto.
  - rewrite H. exists internal_error. repeat split.
Qed.

(** X2: the answer is a client error exactly when a field is falsy or
    the type is none of 'address', 'github' and 'text' (a type that is
    not a string included); the request is then answered at once:
    nothing is called and the workspace is not touched. *)
Theorem client_error_iff env req w :
  (status_code (answer_of (analyze env req w)) = 400%Z <->
   truthy (inputType req) && truthy (input req) && known_type (inputType req) = false) /\
  (status_code (answer_of (analyze env req w)) = 400%Z ->
   trace_of (analyze env req w) = [] /\ workspace_of (analyze env req w) = w /\
   answer_of (analyze env req w)
   = if truthy (inputType req) && truthy (input req) then invalid_type else missing_field).
Proof.
  destruct (truthy (inputType req) && truthy (input req)) eqn:Hfields.
  2:{ rewrite analyze_missing_field by exact Hfields.
      split; [split; reflexivity|]. intros _. repeat split. }
  pose proof Hfields as Hboth.
  apply andb_prop in Hfields. destruct Hfields as [Hty Hin].
  destruct (known_type (inputType req)) eqn:Hknown.
  2:{ rewrite analyze_unknown_type by assumption.
      split; [split; reflexivity|]. intros _. repeat split. }
  assert (Hnot : status_code (answer_of (analyze env req w)) <> 400%Z).
  { destruct (analyze_known_type env req w Hty Hin Hknown) as (resp & Hres & Hshape).
    unfold answer_of. rewrite Hres.
    destruct Hshape as [H200 | [H500 _]].
    - rewrite H200. discriminate.
    - subst resp. discriminate. }
  split; [split; [contradiction | discriminate] | contradiction].
Qed.

(** X3: an address request with an input is answered with a report
    exactly when the explorer returns a non-empty source and an ABI reply
    whose status is not "0"; whatever the engines do then cannot fail
    the request. The workspace of the repository scanner is not touched. *)
Theorem address_request_is_answered_iff env req w :
  is_type "address" (inputType req) = true ->
  truthy (input req) = true ->
  (status_code (answer_of (analyze env req w)) = 200%Z <->
   (exists c s, source_lookup env = Ok (c :: s)) /\
   (exists data, abi_lookup env = Ok data /\ abi_status data <> lit "0")) /\
  (status_code (answer_of (analyze env req w)) <> 200%Z ->
   answer_of (analyze env req w) = internal_error) /\
  workspace_of (analyze env req w) = w.
Proof.
  intros Hty Hin. rewrite <- getContractAbi_ok.
  destruct (source_lookup env) as [[|c s]|e0] eqn:Hsrc.
  1,3: destruct (analyze_address_failure env req w Hty Hin) as (e & t & ->);
       [left; intros c' s'; rewrite Hsrc; discriminate|];
       split; [split; [discriminate | intros [(c' & s' & H) _]; discriminate]|];
       split; reflexivity.
  destruct (getContractAbi (abi_lookup env)) as [abi|e0] eqn:Habi.
  - rewrite (analyze_address_report JSON_parse dirname env req w c s abi Hty Hin Hsrc Habi).
    split; [split; [intros _; split; eauto | reflexivity]|].
    split; [intros H; exfalso; apply H; reflexivity | reflexivity].
  - destruct (analyze_address_failure env req w Hty Hin) as (e & t & ->);
      [right; exists e0; exact Habi|].
    split; [split; [discriminate | intros [_ (abi & H)]; discriminate]|].
    split; reflexivity.
Qed.


(** X5: a text request with an input is answered with status 200 exactly
    when the static analysis of the pasted code succeeds, and then with
    one file entry named 'PastedCode.sol' that holds the analysis; only
    the static adapter runs: the explorer, the harness and the workspace
    are not used. *)
Theorem text_request_is_answered_iff env req w :
  is_type "text" (inputType req) = true ->
  truthy (input req) = true ->
  (status_code (answer_of (analyze env req w)) = 200%Z
   <-> is_ok (getStaticAnalysis (static_reply env)) = true) /\
  (forall textResult, getStaticAnalysis (static_reply env) = Ok textResult ->
     payload (answer_of (analyze env req w))
     = obj2 "reportType" (JStr (lit "text"))
            "files" (JArr [obj2 "file" (JStr (lit "PastedCode.sol")) "analysis" textResult])) /\
  workspace_of (analyze env req w) = w /\
  exists log, trace_of (analyze env req w) = [Started Static; Settled Static] ++ log /\
              forallb is_logged log = true.
Proof.
  intros Hty Hin. rewrite (analyze_text env req w Hty Hin).
  destruct (getStaticAnalysis (static_reply env)) as [v|e].
  - split; [split; reflexivity|]. split.
    + intros v' H. injection H as <-. reflexivity.
    + split; [reflexivity|]. exists []. split; reflexivity.
  - split; [split; discriminate|]. split; [discriminate|].
    split; [reflexivity|]. eexists. split; reflexivity.
Qed.

End Endpoint.

(** * Further properties of the fuzzing engines *)

Section Engines.

Variable JSON_parse : jsstring -> result json.
Variable dirname : jsstring.

Local Abbreviation analyze := (analyze JSON_parse dirname).
Local Abbreviation report_of := (report_of JSON_parse).
Local Abbreviation task_outcome := (task_outcome JSON_parse).

Lemma generic_outcome call :
  fuzz_outcome (value_or (getGenericFuzzingAnalysis call) fallback_generic).
Proof.
  unfold getGenericFuzzingAnalysis, execPromise.
  destruct call as [run|message]; [|eexists _, _; split; reflexivity].
  destruct (exit_code run =? 0)%Z; cbn [errorLog_of].
  - eexists _, _. split; reflexivity.
  - destruct (has_compiler_marker _); eexists _, _; split; reflexivity.
Qed.

(** What [runAIGeneratedFuzzer] returns, by the run of the harness. *)
Lemma runAIGeneratedFuzzer_ok run :
  runAIGeneratedFuzzer (Ok tt) (Ran run) =
  Ok (if (exit_code run =? 0)%Z
      then {| fo_status := lit "passed"; fo_log := out run |}
      else if has_compiler_marker (inspected_log run)
           then {| fo_status := lit "incompatible";
                   fo_log := lit "AI-generated test was not compatible or failed to compile." |}
           else {| fo_status := lit "failed"; fo_log := inspected_log run |}).
Proof.
  unfold runAIGeneratedFuzzer, execPromise, inspected_log. cbn [bind].
  destruct (exit_code run =? 0)%Z; [reflexivity|]. cbn [errorLog_of].
  destruct (has_compiler_marker _); reflexivity.
Qed.

(** What lines 176 to 188 leave in [aiFuzzing] and which stages run, by
    what each stage returns. *)
Lemma ai_pipeline_cases env :
  (result_of (ai_pipeline env None), trace_of (ai_pipeline env None)) =
  match generateFuzzTest (testgen_reply env) with
  | Throw e => (Throw e : result json, [Entered GenerateTest; Left GenerateTest])
  | Ok _ =>
      match write_test env with
      | Throw e => (Throw e, [Entered GenerateTest; Left GenerateTest;
                              Entered ExecuteTest; Left ExecuteTest])
      | Ok _ =>
          match ai_run env with
          | NotRun _ =>
              (Throw type_error, [Entered GenerateTest; Left GenerateTest;
                                  Entered ExecuteTest; Left ExecuteTest])
          | Ran run =>
              if (exit_code run =? 0)%Z
              then (Ok (obj2 "status" (JStr (lit "passed")) "reason" (JStr (out run))),
                    [Entered GenerateTest; Left GenerateTest;
                     Entered ExecuteTest; Left ExecuteTest])
              else if has_compiler_marker (inspected_log run)
              then (Ok (obj2 "status" (JStr (lit "incompatible"))
                             "reason" (JStr (lit "AI-generated test was not compatible or failed to compile."))),
                    [Entered GenerateTest; Left GenerateTest;
                     Entered ExecuteTest; Left ExecuteTest])
              else
                (match interpret_reply env with
                 | Ok interpretation =>
                     Ok (obj2 "status" (JStr (lit "failed")) "reason" (JStr interpretation))
                 | Throw e => Throw e
                 end,
                 [Entered GenerateTest; Left GenerateTest;
                  Entered ExecuteTest; Left ExecuteTest;
                  Entered Interpret; Left Interpret])
          end
      end
  end.
Proof.
  unfold ai_pipeline, run_stage, bindM, emit, await, ret, result_of, trace_of.
  destruct (generateFuzzTest (testgen_reply env)) as [testCode|e]; cbn; [|reflexivity].
  destruct (write_test env) as [[]|e]; [|reflexivity].
  destruct (ai_run env) as [run|message]; [|reflexivity].
  rewrite runAIGeneratedFuzzer_ok.
  destruct (exit_code run =? 0)%Z; [reflexivity|].
  destruct (has_compiler_marker (inspected_log run)); [reflexivity|].
  cbn. unfold interpretFuzzFailure. destruct (interpret_reply env); reflexivity.
Qed.

Lemma ai_pipeline_result env :
  result_of (ai_pipeline env None) = fst (result_of (ai_pipeline env None), trace_of (ai_pipeline env None)).
Proof. reflexivity. Qed.

Lemma ai_pipeline_trace_snd env :
  trace_of (ai_pipeline env None) = snd (result_of (ai_pipeline env None), trace_of (ai_pipeline env None)).
Proof. reflexivity. Qed.

(** X6: the stages of the pipeline run one after the other and stop at
    the first that throws: the harness is run exactly when a test was
    extracted from the model's reply, and the model is asked for an
    interpretation exactly when, moreover, the test file was written and
    the harness failed without a compiler-error marker. *)
Theorem interpretation_only_on_genuine_failure env w :
  entered ExecuteTest (trace_of (ai_pipeline env w))
  = is_ok (generateFuzzTest (testgen_reply env)) /\
  entered Interpret (trace_of (ai_pipeline env w))
  = is_ok (generateFuzzTest (testgen_reply env)) && is_ok (write_test env)
    && genuine_failure (ai_run env).
Proof.
  rewrite ai_pipeline_frame. unfold trace_of at 1 3. cbn [snd].
  rewrite (ai_pipeline_trace_snd env), (ai_pipeline_cases env). unfold genuine_failure.
  destruct (generateFuzzTest (testgen_reply env)); [|split; reflexivity].
  destruct (write_test env); [|split; reflexivity].
  destruct (ai_run env) as [run|message]; [|split; reflexivity].
  destruct (exit_code run =? 0)%Z; [split; reflexivity|].
  destruct (has_compiler_marker (inspected_log run)); split; reflexivity.
Qed.

(** X7: when a test was extracted and written and the harness was run,
    [aiFuzzing] is: 'passed' with the harness's standard output as reason
    on exit code zero; 'incompatible' with a fixed reason on a
    compiler-error marker; 'failed' with the model's interpretation as
    reason on any other failure, the raw log not being reported; and,
    when the interpretation itself throws, the 'incompatible' fallback:
    the failure is then not reported as one. When the harness could not
    be run at all, [aiFuzzing] is the 'incompatible' fallback too. *)
Theorem ai_fuzzing_outcome env :
  is_ok (generateFuzzTest (testgen_reply env)) = true ->
  is_ok (write_test env) = true ->
  (forall run, ai_run env = Ran run ->
     (exit_code run = 0%Z ->
      aiFuzzing_of env = obj2 "status" (JStr (lit "passed")) "reason" (JStr (out run))) /\
     (exit_code run <> 0%Z ->
      has_compiler_marker (inspected_log run) = true ->
      aiFuzzing_of env
      = obj2 "status" (JStr (lit "incompatible"))
             "reason" (JStr (lit "AI-generated test was not compatible or failed to compile."))) /\
     (genuine_failure (ai_run env) = true ->
      (forall interpretation, interpret_reply env = Ok interpretation ->
         aiFuzzing_of env
         = obj2 "status" (JStr (lit "failed")) "reason" (JStr interpretation)) /\
      (forall e, interpret_reply env = Throw e ->
         aiFuzzing_of env
         = obj2 "status" (JStr (lit "incompatible"))
                "reason" (JStr (lit "AI-driven fuzzing process failed to run."))))) /\
  (forall message, ai_run env = NotRun message ->
     aiFuzzing_of env
     = obj2 "status" (JStr (lit "incompatible"))
            "reason" (JStr (lit "AI-driven fuzzing process failed to run."))).
Proof.
  intros Hgen Hwrite. unfold aiFuzzing_of.
  rewrite (ai_pipeline_result env), (ai_pipeline_cases env).
  destruct (generateFuzzTest (testgen_reply env)); [|discriminate].
  destruct (write_test env); [|discriminate].
  split.
  - intros run ->. unfold genuine_failure. split; [|split].
    + intros ->. reflexivity.
    + intros Hexit Hmarker. apply Z.eqb_neq in Hexit. rewrite Hexit, Hmarker. reflexivity.
    + intros H. apply andb_prop in H. destruct H as [Hexit Hmarker].
      apply negb_true_iff in Hexit. apply negb_true_iff in Hmarker.
      rewrite Hexit, Hmarker. cbn [fst]. split.
      * intros text ->. reflexivity.
      * intros e ->. reflexivity.
  - intros message ->. reflexivity.
Qed.

Lemma aiFuzzing_outcome env : fuzz_outcome (aiFuzzing_of env).
Proof.
  unfold aiFuzzing_of. rewrite (ai_pipeline_result env), (ai_pipeline_cases env).
  destruct (generateFuzzTest (testgen_reply env));
    [|eexists _, _; split; reflexivity].
  destruct (write_test env); [|eexists _, _; split; reflexivity].
  destruct (ai_run env) as [run|message]; [|eexists _, _; split; reflexivity].
  destruct (exit_code run =? 0)%Z; [eexists _, _; split; reflexivity|].
  destruct (has_compiler_marker (inspected_log run));
    [eexists _, _; split; reflexivity|].
  cbn [fst]. destruct (interpret_reply env); eexists _, _; split; reflexivity.
Qed.

Lemma genericFuzzing_outcome env :
  fuzz_outcome (value_or (task_outcome env Generic) fallback_generic).
Proof.
  unfold task_outcome. apply generic_outcome.
Qed.

(** X8: in every address report the server returns, [genericFuzzing] and
    [aiFuzzing] are objects [{status, reason}] whose status is 'passed',
    'failed' or 'incompatible' and whose reason is a string. *)
Theorem fuzz_outcomes_are_well_formed env req w resp :
  is_type "address" (inputType req) = true ->
  result_of (analyze env req w) = Ok resp ->
  status_code resp = 200%Z ->
  (exists o, get "genericFuzzing" (payload resp) = Some o /\ fuzz_outcome o) /\
  (exists o, get "aiFuzzing" (payload resp) = Some o /\ fuzz_outcome o).
Proof.
  intros Hty Hres Hcode.
  destruct (analyze_address_200 JSON_parse dirname env req w resp Hty Hres Hcode)
    as (_ & _ & _ & ->).
  split; eexists; (split; [reflexivity|]).
  - apply genericFuzzing_outcome.
  - apply aiFuzzing_outcome.
Qed.

Lemma FuzzReportBox_outcome status reason :
  fuzz_status status = true ->
  FuzzReportBox (Some (obj2 "status" (JStr status) "reason" (JStr reason)))
  = box_of_status status.
Proof.
  unfold fuzz_status. intros H.
  apply orb_prop in H. destruct H as [H|H]; [apply orb_prop in H; destruct H as [H|H]|];
    apply jsstring_eqb_eq in H; subst status; reflexivity.
Qed.

(** X9: for every address report the server returns, the client draws
    the two fuzzing boxes from the [status] of the report (class 'pass',
    'fail' or 'incompatible') and never from the older [passed] field;
    and when the honeypot check itself failed, the client draws the
    honeypot box of a check that passed. *)
Theorem client_boxes_of_a_report env req w resp :
  is_type "address" (inputType req) = true ->
  result_of (analyze env req w) = Ok resp ->
  status_code resp = 200%Z ->
  (exists status reason,
     get "genericFuzzing" (payload resp)
     = Some (obj2 "status" (JStr status) "reason" (JStr reason)) /\
     FuzzReportBox (get "genericFuzzing" (payload resp)) = box_of_status status) /\
  (exists status reason,
     get "aiFuzzing" (payload resp)
     = Some (obj2 "status" (JStr status) "reason" (JStr reason)) /\
     FuzzReportBox (get "aiFuzzing" (payload resp)) = box_of_status status) /\
  (forall e, task_outcome env Dynamic = Throw e ->
     honeypot_box (get "dynamicAnalysis" (payload resp))
     = Some ("pass"%string, Some (JStr (lit "Passed")))).
Proof.
  intros Hty Hres Hcode.
  destruct (analyze_address_200 JSON_parse dirname env req w resp Hty Hres Hcode)
    as (_ & _ & _ & ->).
  split; [|split].
  - destruct (genericFuzzing_outcome env) as (status & reason & Ho & Hs).
    exists status, reason.
    change (get "genericFuzzing" (report_of env))
      with (Some (value_or (task_outcome env Generic) fallback_generic)).
    rewrite Ho. split; [reflexivity|]. apply FuzzReportBox_outcome, Hs.
  - destruct (aiFuzzing_outcome env) as (status & reason & Ho & Hs).
    exists status, reason.
    change (get "aiFuzzing" (report_of env)) with (Some (aiFuzzing_of env)).
    rewrite Ho. split; [reflexivity|]. apply FuzzReportBox_outcome, Hs.
  - intros e He.
    change (get "dynamicAnalysis" (report_of env))
      with (Some (value_or (task_outcome env Dynamic) fallback_dynamic)).
    rewrite He. reflexivity.
Qed.

End Engines.

(** * Further properties of the text handling *)

Section Texts.

Lemma startsWith_self p t : startsWith p (p ++ t) = true.
Proof. induction p as [|x p IH]; simpl; [reflexivity|]. rewrite N.eqb_refl. exact IH. Qed.

Lemma skipn_length_app {A} (a b : list A) : skipn (length a) (a ++ b) = b.
Proof. induction a as [|x a IH]; simpl; [reflexivity | exact IH]. Qed.

Lemma firstn_length_app {A} (a b : list A) : firstn (length a) (a ++ b) = a.
Proof. induction a as [|x a IH]; simpl; [reflexivity | rewrite IH; reflexivity]. Qed.

(** A pattern is first found behind a prefix that lacks its first
    character. *)
Lemma indexOf_behind h p s t :
  forallb (fun c => negb (N.eqb c h)) s = true ->
  indexOf (h :: p) (s ++ (h :: p) ++ t) = Some (length s).
Proof.
  induction s as [|c s IH]; intros Hs.
  - cbn [app length]. cbn [indexOf].
    change (h :: p ++ t) with ((h :: p) ++ t). rewrite startsWith_self. reflexivity.
  - cbn [forallb] in Hs. apply andb_prop in Hs. destruct Hs as [Hc Hs].
    cbn [app indexOf startsWith length].
    rewrite N.eqb_sym. apply negb_true_iff in Hc. rewrite Hc. cbn [andb].
    change (s ++ h :: p ++ t) with (s ++ (h :: p) ++ t).
    rewrite (IH Hs). reflexivity.
Qed.

Lemma remove_all_from_skip p k s :
  remove_all_from p k s = remove_all_from p 0 (skipn k s).
Proof.
  revert k. induction s as [|c s IH]; intros [|k]; try reflexivity.
  cbn [remove_all_from skipn]. apply IH.
Qed.

(** An occurrence at the front is removed. *)
Lemma remove_all_front h p t :
  remove_all (h :: p) ((h :: p) ++ t) = remove_all (h :: p) t.
Proof.
  unfold remove_all. cbn [app]. cbn [remove_all_from].
  change (h :: p ++ t) with ((h :: p) ++ t). rewrite startsWith_self.
  rewrite remove_all_from_skip.
  replace (length (h :: p) - 1) with (length p) by (cbn [length]; lia).
  rewrite skipn_length_app. reflexivity.
Qed.

(** A prefix that lacks the first character of the pattern is kept. *)
Lemma remove_all_behind h p s t :
  forallb (fun c => negb (N.eqb c h)) s = true ->
  remove_all (h :: p) (s ++ t) = s ++ remove_all (h :: p) t.
Proof.
  unfold remove_all. induction s as [|c s IH]; intros Hs; [reflexivity|].
  cbn [forallb] in Hs. apply andb_prop in Hs. destruct Hs as [Hc Hs].
  cbn [app remove_all_from startsWith].
  rewrite N.eqb_sym. apply negb_true_iff in Hc. rewrite Hc. cbn [andb].
  rewrite (IH Hs). reflexivity.
Qed.

Lemma remove_all_nil p : remove_all p [] = [].
Proof. reflexivity. Qed.

End Texts.

Section StaticAdapter.

Variable JSON_parse : jsstring -> result json.

Local Abbreviation getStaticAnalysis := (getStaticAnalysis JSON_parse).

Lemma cleaned_bare body :
  no_backtick body = true ->
  remove_all (lit "```") (remove_all (lit "```json") body) = body.
Proof.
  intros Hbody.
  change (lit "```json") with (backtick :: lit "``json").
  rewrite <- (app_nil_r body) at 1.
  rewrite (remove_all_behind backtick _ body _ Hbody), remove_all_nil, app_nil_r.
  change (lit "```") with (backtick :: lit "``").
  rewrite <- (app_nil_r body) at 1.
  rewrite (remove_all_behind backtick _ body _ Hbody), remove_all_nil, app_nil_r.
  reflexivity.
Qed.

Lemma cleaned_fenced body :
  no_backtick body = true ->
  remove_all (lit "```") (remove_all (lit "```json") (lit "```json" ++ body ++ lit "```"))
  = body.
Proof.
  intros Hbody.
  change (lit "```json") with (backtick :: lit "``json").
  rewrite remove_all_front.
  rewrite (remove_all_behind backtick _ body _ Hbody).
  change (remove_all (backtick :: lit "``json") (lit "```")) with (lit "```").
  change (lit "```") with (backtick :: lit "``").
  rewrite (remove_all_behind backtick _ body _ Hbody).
  change (remove_all (backtick :: lit "``") (backtick :: lit "``")) with (@nil N).
  apply app_nil_r.
Qed.

(** X10: a reply of the model that wraps its JSON in a [```json] fence is
    parsed like the bare JSON: for a text without backticks, the fenced
    reply and the bare reply both hand that text, trimmed, to
    [JSON.parse], and give what it gives. *)
Theorem static_analysis_tolerates_fencing body :
  no_backtick body = true ->
  getStaticAnalysis (Ok (lit "```json" ++ body ++ lit "```")) = JSON_parse (trim body) /\
  getStaticAnalysis (Ok body) = JSON_parse (trim body).
Proof.
  intros Hbody. unfold getStaticAnalysis. cbn [bind].
  rewrite (cleaned_fenced body Hbody), (cleaned_bare body Hbody). split; reflexivity.
Qed.

End StaticAdapter.

Section Trimming.

Lemma trimStart_skipn s : exists k, trimStart s = skipn k s.
Proof.
  induction s as [|c s [k IH]]; [exists 0; reflexivity|]. simpl.
  destruct (isWhiteSpace c); [exists (S k); exact IH | exists 0; reflexivity].
Qed.

Lemma trimStart_head_ok s : head_ok (trimStart s).
Proof.
  induction s as [|c s IH]; simpl; [exact I|].
  destruct (isWhiteSpace c) eqn:Hc; [exact IH | exact Hc].
Qed.

Lemma trimStart_fixed s : head_ok s -> trimStart s = s.
Proof. destruct s as [|c s]; simpl; [reflexivity|]. intros ->. reflexivity. Qed.

Lemma trimEnd_firstn s : exists m, trimEnd s = firstn m s.
Proof.
  unfold trimEnd. destruct (trimStart_skipn (rev s)) as [k ->].
  rewrite skipn_rev, rev_involutive. eexists. reflexivity.
Qed.

Lemma trimEnd_idem s : trimEnd (trimEnd s) = trimEnd s.
Proof.
  unfold trimEnd. rewrite rev_involutive.
  rewrite (trimStart_fixed _ (trimStart_head_ok (rev s))). reflexivity.
Qed.

Lemma head_ok_firstn m s : head_ok s -> head_ok (firstn m s).
Proof. destruct m, s; simpl; auto. Qed.

(** Trimming twice is trimming once. *)
Lemma trim_idem s : trim (trim s) = trim s.
Proof.
  unfold trim.
  destruct (trimEnd_firstn (trimStart s)) as [m Hm].
  rewrite (trimStart_fixed (trimEnd (trimStart s))).
  - apply trimEnd_idem.
  - rewrite Hm. apply head_ok_firstn, trimStart_head_ok.
Qed.

Lemma trim_blank s : blank s = true -> trim s = [].
Proof.
  intros H. unfold trim.
  assert (Hs : trimStart s = []).
  { induction s as [|c s IH]; [reflexivity|]. simpl in *.
    apply andb_prop in H. destruct H as [-> H]. exact (IH H). }
  rewrite Hs. reflexivity.
Qed.

Lemma blank_no_backtick s : blank s = true -> no_backtick s = true.
Proof.
  induction s as [|c s IH]; [reflexivity|]. simpl.
  intros H. apply andb_prop in H. destruct H as [Hc H]. rewrite (IH H), andb_true_r.
  destruct (N.eqb c backtick) eqn:E; [|reflexivity].
  apply N.eqb_eq in E. subst c. discriminate Hc.
Qed.

Lemma startsWith_firstn_inv p n s : startsWith p (firstn n s) = true -> startsWith p s = true.
Proof.
  revert n s. induction p as [|x p IH]; intros n s; [reflexivity|].
  destruct n, s; simpl; try discriminate.
  intros H. apply andb_prop in H. destruct H as [-> H]. exact (IH n s H).
Qed.

Lemma indexOf_none_firstn p s m : indexOf p s = None -> indexOf p (firstn m s) = None.
Proof.
  intros H. destruct (indexOf p (firstn m s)) as [j|] eqn:Hj; [|reflexivity].
  apply indexOf_found in Hj. rewrite skipn_firstn_comm in Hj.
  apply startsWith_firstn_inv in Hj. rewrite (indexOf_none p s j H) in Hj. discriminate.
Qed.

(** Trimming does not make a pattern appear. *)
Lemma indexOf_none_trim p s : indexOf p s = None -> indexOf p (trim s) = None.
Proof.
  intros H. unfold trim.
  destruct (trimEnd_firstn (trimStart s)) as [m ->].
  destruct (trimStart_skipn s) as [k ->].
  apply indexOf_none_firstn, indexOf_none_skipn, H.
Qed.

(** The text before the first occurrence of a pattern holds none. *)
Lemma indexOf_before_first h p s j :
  indexOf (h :: p) s = Some j -> indexOf (h :: p) (firstn j s) = None.
Proof.
  intros H. destruct (indexOf (h :: p) (firstn j s)) as [k|] eqn:Hk; [|reflexivity].
  pose proof (indexOf_le _ _ _ Hk) as Hle. rewrite length_firstn in Hle.
  apply indexOf_found in Hk. rewrite skipn_firstn_comm in Hk.
  destruct (Nat.eq_dec k j) as [->|Hne].
  - rewrite Nat.sub_diag in Hk. simpl in Hk. discriminate Hk.
  - apply startsWith_firstn_inv in Hk.
    rewrite (indexOf_first (h :: p) s j k H) in Hk by lia. discriminate.
Qed.

End Trimming.

Section FenceRemoval.

Variable b : N.
Local Abbreviation p := [b; b; b].

Lemma removed_at_front s :
  startsWith p s = true -> remove_all p s = remove_all p (skipn 3 s).
Proof.
  destruct s as [|c s]; [discriminate|]. intros H.
  unfold remove_all. cbn [remove_all_from]. rewrite H.
  rewrite remove_all_from_skip. reflexivity.
Qed.

Lemma kept_at_front c s :
  startsWith p (c :: s) = false -> remove_all p (c :: s) = c :: remove_all p s.
Proof. intros H. unfold remove_all. cbn [remove_all_from]. rewrite H. reflexivity. Qed.

Lemma no_tick_after_removal s :
  startsWith [b] s = false -> startsWith [b] (remove_all p s) = false.
Proof.
  destruct s as [|e s]; [reflexivity|]. intros H.
  assert (Hp : startsWith p (e :: s) = false).
  { simpl in *. destruct (N.eqb b e); [discriminate | reflexivity]. }
  rewrite (kept_at_front e s Hp). simpl in *. exact H.
Qed.

Lemma no_two_ticks_after_removal s :
  startsWith [b; b] s = false -> startsWith [b; b] (remove_all p s) = false.
Proof.
  destruct s as [|d s]; [reflexivity|]. intros H.
  change (startsWith [b; b] (d :: s)) with (N.eqb b d && startsWith [b] s) in H.
  assert (Hp : startsWith p (d :: s) = false).
  { change (startsWith p (d :: s)) with (N.eqb b d && startsWith [b; b] s).
    destruct (N.eqb b d); [|reflexivity]. cbn [andb] in *.
    destruct s as [|e s]; [reflexivity|]. simpl in *.
    destruct (N.eqb b e); [discriminate | reflexivity]. }
  rewrite (kept_at_front d s Hp).
  change (startsWith [b; b] (d :: remove_all p s))
    with (N.eqb b d && startsWith [b] (remove_all p s)).
  destruct (N.eqb b d); [|reflexivity]. cbn [andb] in *.
  apply no_tick_after_removal, H.
Qed.

Lemma no_fence_at_front_after_removal n :
  forall s, length s <= n -> startsWith p (remove_all p s) = false.
Proof.
  induction n as [|n IH]; intros [|c s] Hlen; try reflexivity; [simpl in Hlen; lia|].
  destruct (startsWith p (c :: s)) eqn:Hp.
  - rewrite (removed_at_front _ Hp). apply IH.
    rewrite length_skipn. simpl in *. lia.
  - rewrite (kept_at_front c s Hp).
    change (startsWith p (c :: remove_all p s))
      with (N.eqb b c && startsWith [b; b] (remove_all p s)).
    change (startsWith p (c :: s)) with (N.eqb b c && startsWith [b; b] s) in Hp.
    destruct (N.eqb b c); [|reflexivity]. cbn [andb] in *.
    apply no_two_ticks_after_removal, Hp.
Qed.

Lemma no_fence_after_removal_upto n :
  forall s, length s <= n -> indexOf p (remove_all p s) = None.
Proof.
  induction n as [|n IH]; intros [|c s] Hlen; try reflexivity; [simpl in Hlen; lia|].
  destruct (startsWith p (c :: s)) eqn:Hp.
  - rewrite (removed_at_front _ Hp). apply IH.
    rewrite length_skipn. simpl in *. lia.
  - pose proof (no_fence_at_front_after_removal (S n) (c :: s) Hlen) as Hfront.
    rewrite (kept_at_front c s Hp) in *.
    cbn [indexOf]. rewrite Hfront, IH by (simpl in Hlen; lia). reflexivity.
Qed.

(** Removing the fences of a text leaves none, also where the removal
    brings backticks together. *)
Lemma no_run_after_removal s : indexOf p (remove_all p s) = None.
Proof. apply (no_fence_after_removal_upto (length s) s). reflexivity. Qed.

End FenceRemoval.

(** Removing the fences of a text leaves none, also where the removal
    brings backticks together. *)
Lemma no_fence_after_removal s : indexOf (lit "```") (remove_all (lit "```") s) = None.
Proof. apply (no_run_after_removal backtick). Qed.

Section CleanedReplies.

Variable JSON_parse : jsstring -> result json.

Local Abbreviation getStaticAnalysis := (getStaticAnalysis JSON_parse).

(** X11: whatever the model replies, the text [getStaticAnalysis] hands
    to [JSON.parse] contains no code fence, also where removing a fence
    brings backticks together, and has no white space at either end. *)
Theorem static_analysis_parses_a_clean_text responseText :
  exists cleaned,
    getStaticAnalysis (Ok responseText) = JSON_parse cleaned /\
    indexOf (lit "```") cleaned = None /\
    trim cleaned = cleaned.
Proof.
  eexists. split; [reflexivity|]. split.
  - apply indexOf_none_trim, no_fence_after_removal.
  - apply trim_idem.
Qed.

End CleanedReplies.

Section GeneratedTest.

Lemma skipn_behind {A} (a b : list A) n : n = length a -> skipn n (a ++ b) = b.
Proof. intros ->. apply skipn_length_app. Qed.

(** The capture of the pattern in a reply whose first backtick opens a
    Solidity block. *)
Lemma match_solidity_block_behind pre inner post :
  no_backtick pre = true -> no_backtick inner = true ->
  match_solidity_block (pre ++ lit "```solidity" ++ inner ++ lit "```" ++ post) = Some inner.
Proof.
  intros Hpre Hinner. unfold match_solidity_block.
  change solidity_opener with (backtick :: lit "``solidity").
  change (lit "```solidity") with (backtick :: lit "``solidity").
  rewrite (indexOf_behind backtick _ pre _ Hpre).
  rewrite app_assoc.
  rewrite (skipn_behind (pre ++ backtick :: lit "``solidity") _)
    by (rewrite length_app; reflexivity).
  change fence with (backtick :: lit "``"). change (lit "```") with (backtick :: lit "``").
  rewrite (indexOf_behind backtick _ inner _ Hinner), firstn_length_app. reflexivity.
Qed.

(** X12: the first Solidity block wins. When no backtick precedes the
    opener [```solidity] and the block holds a non-empty text without
    backticks, [generateFuzzTest] returns that text, trimmed, whatever
    follows the closing fence: later blocks and prose are ignored. *)
Theorem first_solidity_block_wins pre inner post :
  no_backtick pre = true ->
  no_backtick inner = true ->
  inner <> [] ->
  generateFuzzTest (Ok (pre ++ lit "```solidity" ++ inner ++ lit "```" ++ post))
  = Ok (trim inner).
Proof.
  intros Hpre Hinner Hne. unfold generateFuzzTest. cbn [bind].
  rewrite (match_solidity_block_behind pre inner post Hpre Hinner).
  destruct inner; [contradiction | reflexivity].
Qed.

(** X13: a Solidity block that holds nothing but white space is not
    rejected: [generateFuzzTest] returns the empty text for it, and the
    pipeline goes on to write and run that empty test. *)
Theorem blank_block_gives_an_empty_test env pre ws post w :
  no_backtick pre = true ->
  blank ws = true ->
  ws <> [] ->
  testgen_reply env = Ok (pre ++ lit "```solidity" ++ ws ++ lit "```" ++ post) ->
  generateFuzzTest (testgen_reply env) = Ok [] /\
  entered ExecuteTest (trace_of (ai_pipeline env w)) = true.
Proof.
  intros Hpre Hws Hne Hreply.
  assert (Hgen : generateFuzzTest (testgen_reply env) = Ok []).
  { rewrite Hreply. unfold generateFuzzTest. cbn [bind].
    rewrite (match_solidity_block_behind pre ws post Hpre (blank_no_backtick ws Hws)).
    destruct ws as [|c ws]; [contradiction|]. rewrite (trim_blank _ Hws). reflexivity. }
  split; [exact Hgen|].
  rewrite ai_pipeline_frame. unfold trace_of at 1. cbn [snd].
  rewrite (ai_pipeline_trace_snd env), (ai_pipeline_cases env), Hgen.
  destruct (write_test env); [|reflexivity].
  destruct (ai_run env) as [run|message]; [|reflexivity].
  destruct (exit_code run =? 0)%Z; [reflexivity|].
  destruct (has_compiler_marker (inspected_log run)); reflexivity.
Qed.

(** X14: the test code [generateFuzzTest] returns never contains a code
    fence and has no white space at either end. *)
Theorem generated_test_is_clean reply code :
  generateFuzzTest reply = Ok code ->
  indexOf (lit "```") code = None /\ trim code = code.
Proof.
  unfold generateFuzzTest. destruct reply as [responseText|e]; [|discriminate].
  cbn [bind]. unfold match_solidity_block.
  destruct (indexOf solidity_opener responseText) as [i|]; [|discriminate].
  cbv zeta.
  destruct (indexOf fence (skipn (i + length solidity_opener) responseText)) as [j|] eqn:Hj;
    [|discriminate].
  destruct (firstn j (skipn (i + length solidity_opener) responseText)) as [|c m] eqn:Hm;
    [discriminate|].
  intros H. injection H as <-. split.
  - apply indexOf_none_trim. rewrite <- Hm.
    apply (indexOf_before_first backtick (lit "``")). exact Hj.
  - apply trim_idem.
Qed.

End GeneratedTest.

(** * Further properties of the repository scanner *)

Section FileWalk.

Lemma path_relative_join a b : path_relative a (path_join a b) = b.
Proof.
  unfold path_relative, path_join.
  replace (length a + 1) with (length (a ++ lit "/")) by (rewrite length_app; reflexivity).
  rewrite app_assoc. apply skipn_length_app.
Qed.

Lemma found_below_join startPath name f :
  found_below (path_join startPath name) f -> found_below startPath f.
Proof.
  destruct f as [path b]. unfold found_below. cbn [fst].
  intros [Hsol Hjoin]. split; [exact Hsol|].
  remember (path_relative (path_join startPath name) path) as rel eqn:Hrel. clear Hrel.
  assert (E : path = path_join startPath (name ++ lit "/" ++ rel)).
  { rewrite <- Hjoin. unfold path_join. rewrite <- !app_assoc. reflexivity. }
  rewrite E, path_relative_join. reflexivity.
Qed.

Lemma for_of_files_found_below startPath files :
  Forall (fun file => forall found log,
            visit_entry startPath file = Visited found log ->
            Forall (found_below startPath) found) files ->
  Forall (found_below startPath) (fst (for_of_files (visit_entry startPath) startPath files)).
Proof.
  induction 1 as [|file files Hfile _ IH]; [constructor|]. simpl.
  destruct (visit_entry startPath file) as [found log|e] eqn:Hv; [|constructor].
  destruct (for_of_files _ _ files) as [found' log']. simpl in *.
  apply Forall_app. split; [apply (Hfile found log eq_refl) | exact IH].
Qed.

Lemma visit_entry_found_below file :
  forall startPath found log,
    visit_entry startPath file = Visited found log ->
    Forall (found_below startPath) found.
Proof.
  induction file as [name b|name e|name e|name files IH] using entry_tree_ind;
    intros startPath found log; cbn [visit_entry entry_name find_in].
  - destruct (endsWith (lit ".sol") (path_join startPath name)) eqn:Hsol;
      intros H; injection H as <- _; constructor; [|constructor].
    split; [exact Hsol|]. cbn [fst]. rewrite path_relative_join. reflexivity.
  - discriminate.
  - intros H. injection H as <- _. constructor.
  - pose proof (for_of_files_found_below (path_join startPath name) files) as Hall.
    destruct (for_of_files _ _ files) as [found' log']. cbn [fst] in Hall.
    intros H. injection H as <- _.
    eapply Forall_impl; [apply found_below_join|].
    apply Hall. revert IH. apply Forall_impl. intros f Hf. apply Hf.
Qed.

(** X15: every path [findSolidityFiles] returns ends in [.sol] and lies
    below the start path: it is the start path joined with its own path
    relative to the start path, so that [path.relative] recovers a name
    inside the tree. *)
Theorem found_files_lie_below_the_start startPath dir f :
  In f (fst (findSolidityFiles startPath dir)) ->
  endsWith (lit ".sol") (fst f) = true /\
  path_join startPath (path_relative startPath (fst f)) = fst f.
Proof.
  intros Hin. destruct dir as [files|e]; [|destruct Hin].
  assert (Hall : Forall (found_below startPath)
                   (fst (findSolidityFiles startPath (Ok files)))).
  { apply for_of_files_found_below, Forall_forall. intros file _.
    apply visit_entry_found_below. }
  rewrite Forall_forall in Hall. exact (Hall f Hin).
Qed.

Lemma for_of_files_truncated v startPath before name e after :
  v (Broken name e) = Raised e ->
  fst (for_of_files v startPath (before ++ Broken name e :: after))
  = fst (for_of_files v startPath before).
Proof.
  intros Hv. induction before as [|file before IH]; simpl.
  - rewrite Hv. reflexivity.
  - destruct (v file) as [found log|e']; [|reflexivity].
    destruct (for_of_files v startPath (before ++ Broken name e :: after)) as [fa la].
    destruct (for_of_files v startPath before) as [fb lb]. simpl in *.
    rewrite IH. reflexivity.
Qed.

(** X16: an entry on which [lstat] fails ends the walk of its directory:
    what was found before it is kept, the entries after it are not
    visited, and the failure is not raised any further: the directory
    counts for its parent as if its listing had ended there. *)
Theorem lstat_failure_truncates_the_listing startPath before name e after :
  fst (findSolidityFiles startPath (Ok (before ++ Broken name e :: after)))
  = fst (findSolidityFiles startPath (Ok before)) /\
  forall dir_name,
    visit_found (visit_entry startPath (Dir dir_name (Ok (before ++ Broken name e :: after))))
    = visit_found (visit_entry startPath (Dir dir_name (Ok before))).
Proof.
  split.
  - apply for_of_files_truncated. reflexivity.
  - intros dir_name. cbn [visit_entry entry_name find_in].
    pose proof (for_of_files_truncated
                  (visit_entry (path_join startPath dir_name))
                  (path_join startPath dir_name) before name e after eq_refl) as H.
    destruct (for_of_files _ _ (before ++ Broken name e :: after)) as [fa la].
    destruct (for_of_files _ _ before) as [fb lb]. cbn [fst] in H. rewrite H. reflexivity.
Qed.

Lemma for_of_files_app v startPath a b :
  forallb (fun file => negb (is_broken file)) a = true ->
  (forall file, is_broken file = false -> exists found log, v file = Visited found log) ->
  fst (for_of_files v startPath (a ++ b))
  = fst (for_of_files v startPath a) ++ fst (for_of_files v startPath b).
Proof.
  intros Ha Hv. induction a as [|file a IH]; [reflexivity|].
  cbn [forallb] in Ha. apply andb_prop in Ha. destruct Ha as [Hfile Ha].
  apply negb_true_iff in Hfile. destruct (Hv file Hfile) as (found & log & Hvisit).
  cbn [app for_of_files]. rewrite Hvisit.
  destruct (for_of_files v startPath (a ++ b)) as [fab lab].
  destruct (for_of_files v startPath a) as [fa la]. cbn [fst] in *.
  rewrite (IH Ha), app_assoc. reflexivity.
Qed.

Lemma visit_entry_visited startPath file :
  is_broken file = false -> exists found log, visit_entry startPath file = Visited found log.
Proof.
  destruct file as [name b|name dir|name e]; [| |discriminate]; intros _;
    cbn [visit_entry entry_name].
  - destruct (endsWith _ _); eexists _, _; reflexivity.
  - destruct (find_in _ _ dir). eexists _, _; reflexivity.
Qed.

(** X17: the files are found in the order of the listing, depth first:
    over a listing in two parts, the first of which has no entry on
    which [lstat] fails, the walk finds the files of the first part
    followed by the files of the second. *)
Theorem walk_follows_the_listing startPath a b :
  forallb (fun file => negb (is_broken file)) a = true ->
  fst (findSolidityFiles startPath (Ok (a ++ b)))
  = fst (findSolidityFiles startPath (Ok a)) ++ fst (findSolidityFiles startPath (Ok b)).
Proof.
  intros Ha. apply for_of_files_app; [exact Ha|]. apply visit_entry_visited.
Qed.

End FileWalk.

Section ScanResults.

Variable JSON_parse : jsstring -> result json.
Variable dirname : jsstring.

Local Abbreviation batch_loop := (batch_loop JSON_parse dirname).
Local Abbreviation run_batch := (run_batch JSON_parse dirname).
Local Abbreviation analyze_file := (analyze_file JSON_parse dirname).
Local Abbreviation analyzeGitHubRepo := (analyzeGitHubRepo JSON_parse dirname).
Local Abbreviation getStaticAnalysis := (getStaticAnalysis JSON_parse).
Local Abbreviation tempDir := (tempDir dirname).
Local Abbreviation skipping := (skipping dirname).
Local Abbreviation file_entry := (file_entry dirname).

(** What the callback pushes for one file. *)
Lemma analyze_file_pushes filePath b entry :
  In entry (fst (analyze_file (filePath, b))) <->
  exists fileContent analysis,
    read b = Ok fileContent /\ 50 <= length (trim fileContent) /\
    getStaticAnalysis (reply b) = Ok analysis /\
    entry = file_entry filePath analysis.
Proof.
  unfold analyze_file.
  destruct (read b) as [fileContent|e]; cbn [bind].
  2:{ split; [intros [] | intros (c & a & H & _); discriminate]. }
  destruct (length (trim fileContent) <? 50) eqn:Hshort.
  - apply Nat.ltb_lt in Hshort. split; [intros []|].
    intros (c & a & H & Hlen & _). injection H as <-. lia.
  - apply Nat.ltb_ge in Hshort.
    destruct (getStaticAnalysis (reply b)) as [analysis|e]; cbn [bind fst].
    + split.
      * intros [<- | []]. exists fileContent, analysis. repeat split; auto.
      * intros (c & a & _ & _ & H & ->). injection H as <-. left. reflexivity.
    + split; [intros [] | intros (c & a & _ & _ & H & _); discriminate].
Qed.

Lemma analyze_file_at_most_one f : length (fst (analyze_file f)) <= 1.
Proof.
  destruct f as [filePath b]. unfold analyze_file.
  destruct (read b) as [fileContent|e]; cbn [bind]; [|simpl; lia].
  destruct (length (trim fileContent) <? 50); [simpl; lia|].
  destruct (getStaticAnalysis (reply b)); simpl; lia.
Qed.

Lemma pushed_at_most_one_each files :
  length (flat_map (fun f => fst (analyze_file f)) files) <= length files.
Proof.
  induction files as [|f files IH]; [reflexivity|].
  cbn [flat_map]. rewrite length_app. pose proof (analyze_file_at_most_one f) as Hf.
  cbn [length]. lia.
Qed.

(** X18: the findings of a scan are exactly the entries of the files
    found that could be read, are at least 50 characters long once
    trimmed, and were analysed: each such file gives the entry with its
    path relative to the workspace and its analysis, and there is no
    other entry; so there are at most as many findings as files. *)
Theorem findings_are_the_analysed_files repo dir w findings :
  clone repo = Ok dir ->
  result_of (analyzeGitHubRepo repo w) = Ok findings ->
  (forall entry,
     In entry findings <->
     exists filePath b fileContent analysis,
       In (filePath, b) (fst (findSolidityFiles tempDir dir)) /\
       read b = Ok fileContent /\ 50 <= length (trim fileContent) /\
       getStaticAnalysis (reply b) = Ok analysis /\
       entry = file_entry filePath analysis) /\
  length findings <= length (fst (findSolidityFiles tempDir dir)).
Proof.
  intros Hclone. rewrite scan_outcome, Hclone.
  destruct (stale_removal repo) as [u1|e1]; [|discriminate].
  destruct (creation repo) as [u2|e2]; [|discriminate].
  destruct (final_removal repo) as [u3|e3]; [|discriminate].
  clear u1 u2 u3. unfold result_of. cbn [fst].
  intros H. injection H as <-.
  set (files := fst (findSolidityFiles tempDir dir)).
  pose proof (pushed_batch_loop JSON_parse dirname files 0) as Hperm. cbn [skipn] in Hperm.
  split.
  - intros entry. split.
    + intros Hin. apply (Permutation_in _ Hperm) in Hin.
      apply in_flat_map in Hin. destruct Hin as ([filePath b] & Hf & Hentry).
      apply analyze_file_pushes in Hentry. destruct Hentry as (c & a & H1 & H2 & H3 & H4).
      exists filePath, b, c, a. auto.
    + intros (filePath & b & c & a & Hf & H1 & H2 & H3 & H4).
      apply (Permutation_in _ (Permutation_sym Hperm)).
      apply in_flat_map. exists (filePath, b). split; [exact Hf|].
      apply analyze_file_pushes. exists c, a. auto.
  - rewrite (Permutation_length Hperm). apply pushed_at_most_one_each.
Qed.

Lemma analyze_file_logs f :
  snd (analyze_file f)
  = if file_fails JSON_parse f then [Logged (skipping (fst f))] else [].
Proof.
  destruct f as [filePath b]. unfold analyze_file, file_fails. cbn [fst snd].
  destruct (read b) as [fileContent|e]; cbn [bind]; [|reflexivity].
  destruct (length (trim fileContent) <? 50); [reflexivity|].
  destruct (getStaticAnalysis (reply b)); reflexivity.
Qed.

Lemma logs_of_files files :
  flat_map (fun f => snd (analyze_file f)) files
  = map (fun f => Logged (skipping (fst f))) (filter (file_fails JSON_parse) files).
Proof.
  induction files as [|f files IH]; [reflexivity|].
  cbn [flat_map filter]. rewrite IH, analyze_file_logs.
  destruct (file_fails JSON_parse f); reflexivity.
Qed.

Lemma filter_logged_only trace : forallb is_logged trace = true -> filter is_logged trace = trace.
Proof.
  induction trace as [|e trace IH]; [reflexivity|]. cbn [forallb filter].
  intros H. apply andb_prop in H. destruct H as [-> H]. rewrite (IH H). reflexivity.
Qed.

Lemma logged_batch_loop files i :
  Permutation (filter is_logged (snd (batch_loop files i)))
              (flat_map (fun f => snd (analyze_file f)) (skipn i files)).
Proof.
  apply (batch_loop_turns JSON_parse dirname files
           (fun i r => Permutation (filter is_logged (snd r))
                         (flat_map (fun f => snd (analyze_file f)) (skipn i files)))).
  - intros j Hj. rewrite skipn_all2 by exact Hj. reflexivity.
  - intros j Hj IH. unfold turn, run_batch. cbn [snd].
    rewrite <- (firstn_skipn 5 (skipn j files)), flat_map_app.
    cbn [app filter is_logged]. rewrite !filter_app.
    rewrite (filter_logged_only _ (batch_log_logged_only JSON_parse dirname _)).
    cbn [filter is_logged app].
    assert (Hpause : filter is_logged (if j + BATCH_SIZE <? length files
                                       then [Paused DELAY_MS] else []) = [])
      by (destruct (j + BATCH_SIZE <? length files); reflexivity).
    rewrite Hpause. cbn [app]. rewrite app_nil_r. apply Permutation_app.
    + unfold slice, BATCH_SIZE. replace (j + 5 - j) with 5 by lia.
      apply Permutation_flat_map, settle_order_perm.
    + rewrite <- skipn_add. exact IH.
Qed.

(** X19: during the batches of a scan that gets as far as the file walk,
    exactly one line is logged for every file found that could not be
    read or analysed, naming its relative path, and none for any other
    file: a file that is too short is skipped without a trace. *)
Theorem one_line_per_failing_file repo dir w :
  prepared repo dir ->
  exists scan_log,
    trace_of (analyzeGitHubRepo repo w)
    = [RemovalStarted; CreationStarted; CloneStarted]
        ++ snd (findSolidityFiles tempDir dir) ++ scan_log ++ [RemovalStarted] /\
    Permutation (filter is_logged scan_log)
                (map (fun f => Logged (skipping (fst f)))
                     (filter (file_fails JSON_parse) (fst (findSolidityFiles tempDir dir)))).
Proof.
  intros Hprepared. rewrite (trace_after_clone JSON_parse dirname repo dir w Hprepared).
  eexists. split; [reflexivity|].
  rewrite <- logs_of_files. apply (logged_batch_loop _ 0).
Qed.

(** The loop from index [i] on is the loop over the files from [i] on. *)
Lemma batch_loop_shift n :
  forall files i, length files - i <= n ->
                  batch_loop files i = batch_loop (skipn i files) 0.
Proof.
  induction n as [|n IH]; intros files i Hn.
  - rewrite (batch_loop_step JSON_parse dirname files i),
      (batch_loop_step JSON_parse dirname (skipn i files) 0).
    rewrite length_skipn.
    replace (i <? length files) with false by (symmetry; apply Nat.ltb_ge; lia).
    replace (0 <? length files - i) with false by (symmetry; apply Nat.ltb_ge; lia).
    reflexivity.
  - rewrite (batch_loop_step JSON_parse dirname files i),
      (batch_loop_step JSON_parse dirname (skipn i files) 0).
    rewrite length_skipn.
    destruct (i <? length files) eqn:Hi.
    + apply Nat.ltb_lt in Hi.
      replace (0 <? length files - i) with true by (symmetry; apply Nat.ltb_lt; lia).
      unfold slice, BATCH_SIZE in *.
      replace (i + 5 - i) with 5 by lia. replace (0 + 5 - 0) with 5 by lia.
      cbn [skipn Nat.add].
      replace (5 <? length files - i) with (i + 5 <? length files)
        by (destruct (i + 5 <? length files) eqn:E; symmetry;
            [apply Nat.ltb_lt in E; apply Nat.ltb_lt | apply Nat.ltb_ge in E; apply Nat.ltb_ge];
            lia).
      rewrite (IH files (i + 5)) by lia.
      rewrite (IH (skipn i files) 5) by (rewrite length_skipn; lia).
      rewrite <- skipn_add. reflexivity.
    + apply Nat.ltb_ge in Hi.
      replace (0 <? length files - i) with false by (symmetry; apply Nat.ltb_ge; lia).
      reflexivity.
Qed.

Lemma batch_loop_nil : batch_loop [] 0 = ([], []).
Proof. rewrite (batch_loop_step JSON_parse dirname). reflexivity. Qed.

(** The first turn of the loop over at least five files. *)
Lemma batch_loop_first a rest :
  length a = 5 ->
  batch_loop (a ++ rest) 0
  = turn (run_batch a)
         (match rest with [] => [] | _ :: _ => [Paused 2000] end)
         (batch_loop rest 0).
Proof.
  intros Ha. rewrite (batch_loop_step JSON_parse dirname (a ++ rest) 0).
  rewrite length_app, Ha. cbn [Nat.add Nat.ltb Nat.leb].
  unfold slice, BATCH_SIZE, DELAY_MS. cbn [Nat.add Nat.sub skipn].
  rewrite <- Ha at 1. rewrite firstn_length_app.
  rewrite (batch_loop_shift (length (a ++ rest)) (a ++ rest) 5) by lia.
  rewrite <- Ha at 2. rewrite skipn_length_app.
  destruct rest as [|f rest]; [reflexivity|].
  replace (5 <? 5 + length (f :: rest)) with true
    by (symmetry; apply Nat.ltb_lt; cbn [length]; lia).
  reflexivity.
Qed.

Lemma scanning_in_parts_upto k :
  forall a b, length a = 5 * k ->
    batch_loop (a ++ b) 0
    = (fst (batch_loop a 0) ++ fst (batch_loop b 0),
       snd (batch_loop a 0) ++ pause_between a b ++ snd (batch_loop b 0)).
Proof.
  induction k as [|k IH]; intros a b Ha.
  - destruct a; [|discriminate]. rewrite batch_loop_nil. cbn [app fst snd pause_between].
    destruct (batch_loop b 0); reflexivity.
  - rewrite <- (firstn_skipn 5 a).
    set (a1 := firstn 5 a). set (a2 := skipn 5 a).
    assert (Ha1 : length a1 = 5) by (unfold a1; rewrite length_firstn; lia).
    assert (Ha2 : length a2 = 5 * k) by (unfold a2; rewrite length_skipn; lia).
    rewrite <- app_assoc.
    rewrite (batch_loop_first a1 (a2 ++ b) Ha1), (batch_loop_first a1 a2 Ha1).
    rewrite (IH a2 b Ha2). unfold turn. cbn [fst snd].
    rewrite <- !app_assoc. f_equal. f_equal.
    destruct a1 as [|x a1]; [discriminate|].
    destruct a2 as [|y a2]; destruct b as [|z b]; cbn [app pause_between];
      rewrite ?batch_loop_nil; cbn [app fst snd]; rewrite ?app_nil_r; reflexivity.
Qed.

(** X20: scanning a list of files whose first part fills whole batches is
    scanning the first part and then the rest: the findings of the first
    part come first, and the events are those of the first part, one
    pause when neither part is empty, and those of the rest. *)
Theorem scanning_in_parts a b :
  length a mod 5 = 0 ->
  fst (batch_loop (a ++ b) 0) = fst (batch_loop a 0) ++ fst (batch_loop b 0) /\
  snd (batch_loop (a ++ b) 0)
  = snd (batch_loop a 0) ++ pause_between a b ++ snd (batch_loop b 0).
Proof.
  intros Ha.
  rewrite (scanning_in_parts_upto (length a / 5) a b).
  - split; reflexivity.
  - pose proof (Nat.div_mod_eq (length a) 5). lia.
Qed.

End ScanResults.

Section AdapterResults.

Variable JSON_parse : jsstring -> result json.
Variable dirname : jsstring.

Local Abbreviation analyze := (analyze JSON_parse dirname).
Local Abbreviation report_of := (report_of JSON_parse).
Local Abbreviation task_outcome := (task_outcome JSON_parse).

(** X21: in an address report, [dynamicAnalysis] is what [JSON.parse]
    makes of the standard output of the honeypot script when the script
    exits with code zero and its output parses; in every other case,
    a non-zero exit and a script that could not be run included, it is
    the fallback that says the contract is no honeypot. The standard
    error of the script is never read. *)
Theorem dynamic_analysis_of_a_report env req w resp :
  is_type "address" (inputType req) = true ->
  result_of (analyze env req w) = Ok resp ->
  status_code resp = 200%Z ->
  get "dynamicAnalysis" (payload resp)
  = Some (match honeypot_run env with
          | Ran run =>
              if (exit_code run =? 0)%Z
              then match JSON_parse (out run) with
                   | Ok value => value
                   | Throw _ =>
                       obj2 "isHoneypot" (JBool false)
                            "reason" (JStr (lit "Honeypot check failed."))
                   end
              else obj2 "isHoneypot" (JBool false) "reason" (JStr (lit "Honeypot check failed."))
          | NotRun _ =>
              obj2 "isHoneypot" (JBool false) "reason" (JStr (lit "Honeypot check failed."))
          end).
Proof.
  intros Hty Hres Hcode.
  destruct (analyze_address_200 JSON_parse dirname env req w resp Hty Hres Hcode)
    as (_ & _ & _ & ->).
  change (get "dynamicAnalysis" (report_of env))
    with (Some (value_or (task_outcome env Dynamic) fallback_dynamic)).
  unfold task_outcome, getDynamicAnalysis, execPromise.
  destruct (honeypot_run env) as [run|message]; [|reflexivity].
  destruct (exit_code run =? 0)%Z; cbn [bind]; [|reflexivity].
  destruct (JSON_parse (out run)); reflexivity.
Qed.

(** X22: the generic fuzzer adapter settles every run of the harness
    itself, whatever its exit code and output: its promise is rejected
    exactly when [exec] throws before anything is captured, and then not
    with the error of [exec] but with the TypeError of reading [includes]
    of [undefined]; an address report holds the orchestrator's sentinel
    'Generic fuzzing failed.' in that case and in no other. *)
Theorem generic_fuzzing_sentinel_iff env req w resp :
  is_type "address" (inputType req) = true ->
  result_of (analyze env req w) = Ok resp ->
  status_code resp = 200%Z ->
  (is_ok (task_outcome env Generic) = false
   <-> exists message, generic_run env = NotRun message) /\
  (forall message, generic_run env = NotRun message ->
     task_outcome env Generic
     = Throw (Error (lit "Cannot read properties of undefined (reading 'includes')"))) /\
  (get "genericFuzzing" (payload resp)
   = Some (obj2 "status" (JStr (lit "incompatible"))
                "reason" (JStr (lit "Generic fuzzing failed.")))
   <-> exists message, generic_run env = NotRun message).
Proof.
  intros Hty Hres Hcode.
  destruct (analyze_address_200 JSON_parse dirname env req w resp Hty Hres Hcode)
    as (_ & _ & _ & ->).
  change (get "genericFuzzing" (report_of env))
    with (Some (value_or (task_outcome env Generic) fallback_generic)).
  unfold task_outcome, getGenericFuzzingAnalysis, execPromise.
  destruct (generic_run env) as [run|message].
  - assert (Hnot : ~ exists message, Ran run = NotRun message)
      by (intros [message H]; discriminate H).
    destruct (exit_code run =? 0)%Z; cbn [errorLog_of].
    + split; [split; [discriminate | intros H; contradiction]|].
      split; [discriminate|]. split; [discriminate | intros H; contradiction].
    + destruct (has_compiler_marker _); cbn [is_ok value_or].
      * split; [split; [discriminate | intros H; contradiction]|].
        split; [discriminate|]. split; [discriminate | intros H; contradiction].
      * split; [split; [discriminate | intros H; contradiction]|].
        split; [discriminate|].
        split; [intros H; injection H as H; discriminate H | intros H; contradiction].
  - split; [split; [intros _; eexists; reflexivity | reflexivity]|].
    split; [reflexivity|]. split; [intros _; eexists; reflexivity | reflexivity].
Qed.

End AdapterResults.

Lemma client_error_iff_witness :
  trace_of (analyze Sample.parse Sample.dirname Sample.env SampleMore.numeric_type_request None)
    = [] /\
  answer_of (analyze Sample.parse Sample.dirname Sample.env SampleMore.numeric_type_request None)
    = invalid_type.
Proof.
  destruct (proj2 (client_error_iff Sample.parse Sample.dirname Sample.env
                     SampleMore.numeric_type_request None)) as (Ht & _ & Ha).
  - reflexivity.
  - split; [exact Ht | exact Ha].
Defined.

Lemma address_request_is_answered_iff_witness :
  status_code (answer_of (analyze Sample.parse Sample.dirname Sample.env
                                  Sample.address_request None)) = 200%Z.
Proof.
  apply (proj1 (address_request_is_answered_iff Sample.parse Sample.dirname Sample.env
                  Sample.address_request None eq_refl eq_refl)).
  split.
  - exists 99%N, (lit "ontract C {}"). reflexivity.
  - eexists. split; [reflexivity|]. vm_compute. discriminate.
Defined.


Lemma text_request_is_answered_iff_witness :
  workspace_of (analyze Sample.parse Sample.dirname Sample.env SampleMore.text_request
                        (Some (Ok []))) = Some (Ok []).
Proof.
  apply (text_request_is_answered_iff Sample.parse Sample.dirname Sample.env
           SampleMore.text_request (Some (Ok [])) eq_refl eq_refl).
Defined.

Lemma ai_fuzzing_outcome_witness :
  aiFuzzing_of Sample.env
  = obj2 "status" (JStr (lit "failed"))
         "reason" (JStr (lit "transfer() lets the balance underflow.")).
Proof.
  destruct (proj1 (ai_fuzzing_outcome Sample.env eq_refl eq_refl) Sample.failing eq_refl)
    as (_ & _ & H).
  apply (proj1 (H eq_refl)). reflexivity.
Defined.

Lemma fuzz_outcomes_are_well_formed_witness :
  exists o, get "aiFuzzing" (payload (Sample.report Sample.env)) = Some o /\ fuzz_outcome o.
Proof.
  apply (fuzz_outcomes_are_well_formed Sample.parse Sample.dirname Sample.env
           Sample.address_request None (Sample.report Sample.env) eq_refl eq_refl eq_refl).
Defined.

Lemma client_boxes_of_a_report_witness :
  exists status reason,
    get "aiFuzzing" (payload (Sample.report Sample.env))
    = Some (obj2 "status" (JStr status) "reason" (JStr reason)) /\
    FuzzReportBox (get "aiFuzzing" (payload (Sample.report Sample.env))) = box_of_status status.
Proof.
  apply (client_boxes_of_a_report Sample.parse Sample.dirname Sample.env
           Sample.address_request None (Sample.report Sample.env) eq_refl eq_refl eq_refl).
Defined.

Lemma static_analysis_tolerates_fencing_witness :
  getStaticAnalysis Sample.parse (Ok (lit "```json" ++ (LF ++ lit "{}" ++ LF) ++ lit "```"))
  = Ok (JObj []).
Proof.
  apply (proj1 (static_analysis_tolerates_fencing Sample.parse (LF ++ lit "{}" ++ LF) eq_refl)).
Defined.

Lemma first_solidity_block_wins_witness :
  generateFuzzTest (Ok SampleMore.two_blocks_reply) = Ok (lit "contract T {}").
Proof.
  apply (first_solidity_block_wins (lit "Here is the test:")
           (LF ++ lit "contract T {}" ++ LF)
           (lit " and a variant: ```solidity contract U {}```") eq_refl eq_refl).
  discriminate.
Defined.

Lemma blank_block_gives_an_empty_test_witness :
  generateFuzzTest (testgen_reply SampleMore.env_blank_test) = Ok [] /\
  entered ExecuteTest (trace_of (ai_pipeline SampleMore.env_blank_test None)) = true.
Proof.
  apply (blank_block_gives_an_empty_test SampleMore.env_blank_test [] LF [] None
           eq_refl eq_refl).
  - discriminate.
  - reflexivity.
Defined.

Lemma generated_test_is_clean_witness :
  indexOf (lit "```") (lit "contract AIGeneratedFuzzer is Test {}") = None /\
  trim (lit "contract AIGeneratedFuzzer is Test {}") = lit "contract AIGeneratedFuzzer is Test {}".
Proof.
  apply (generated_test_is_clean (Ok Sample.test_reply)). reflexivity.
Defined.

Lemma found_files_lie_below_the_start_witness :
  endsWith (lit ".sol") (fst SampleMore.token) = true /\
  path_join (tempDir Sample.dirname) (lit "contracts/Token.sol") = fst SampleMore.token.
Proof.
  apply (found_files_lie_below_the_start (tempDir Sample.dirname) SampleRepo.tree SampleMore.token).
  vm_compute. tauto.
Defined.

Lemma walk_follows_the_listing_witness :
  fst (findSolidityFiles (lit "/r") (Ok ([File (lit "A.sol") SampleRepo.stub]
                                         ++ [File (lit "B.sol") SampleRepo.stub])))
  = [(lit "/r/A.sol", SampleRepo.stub)] ++ [(lit "/r/B.sol", SampleRepo.stub)].
Proof.
  apply (walk_follows_the_listing (lit "/r") [File (lit "A.sol") SampleRepo.stub]
           [File (lit "B.sol") SampleRepo.stub]).
  reflexivity.
Defined.

Lemma findings_are_the_analysed_files_witness :
  length (fst (batch_loop Sample.parse Sample.dirname
                 (fst (findSolidityFiles (tempDir Sample.dirname) SampleRepo.tree)) 0)) <= 12.
Proof.
  apply (findings_are_the_analysed_files Sample.parse Sample.dirname
           SampleRepo.checked_out SampleRepo.tree None); reflexivity.
Defined.

Lemma one_line_per_failing_file_witness :
  exists scan_log,
    trace_of (analyzeGitHubRepo Sample.parse Sample.dirname SampleRepo.locked None)
    = [RemovalStarted; CreationStarted; CloneStarted]
        ++ snd (findSolidityFiles (tempDir Sample.dirname) SampleRepo.tree)
        ++ scan_log ++ [RemovalStarted] /\
    Permutation (filter is_logged scan_log)
                [Logged (lit "Skipping analysis for contracts/Vault.sol.");
                 Logged (lit "Skipping analysis for contracts/Oracle.sol.")].
Proof.
  apply (one_line_per_failing_file Sample.parse Sample.dirname
           SampleRepo.locked SampleRepo.tree None).
  repeat split.
Defined.

Lemma scanning_in_parts_witness :
  rhythm (snd (batch_loop Sample.parse Sample.dirname
                 (SampleMore.five_files ++ SampleMore.two_files) 0))
  = rhythm (snd (batch_loop Sample.parse Sample.dirname SampleMore.five_files 0)
            ++ pause_between SampleMore.five_files SampleMore.two_files
            ++ snd (batch_loop Sample.parse Sample.dirname SampleMore.two_files 0)).
Proof.
  rewrite (proj2 (scanning_in_parts Sample.parse Sample.dirname
                    SampleMore.five_files SampleMore.two_files eq_refl)).
  reflexivity.
Defined.

Lemma dynamic_analysis_of_a_report_witness :
  get "dynamicAnalysis" (payload (Sample.report Sample.env)) = Some (JObj []).
Proof.
  apply (dynamic_analysis_of_a_report Sample.parse Sample.dirname Sample.env
           Sample.address_request None (Sample.report Sample.env) eq_refl eq_refl eq_refl).
Defined.

Lemma generic_fuzzing_sentinel_iff_witness :
  get "genericFuzzing" (payload (Sample.report SampleMore.env_no_forge))
  = Some (obj2 "status" (JStr (lit "incompatible")) "reason" (JStr (lit "Generic fuzzing failed."))).
Proof.
  apply (generic_fuzzing_sentinel_iff Sample.parse Sample.dirname SampleMore.env_no_forge
           Sample.address_request None (Sample.report SampleMore.env_no_forge)
           eq_refl eq_refl eq_refl).
  exists (lit "spawn ENOMEM"). reflexivity.
Defined.
